(** * Assistant bot: command layer over an address book

    A shallow embedding of [main.py] (line parsing and dispatch) and
    [handlers.py] (the command handlers and the [input_error] decorator),
    together with the parts of [record.py] and [address_book.py] the handlers
    call.  Those two files hold the classes [Record] and [AddressBook]; their
    definitions below are written from the specification and marked so.

    Python strings are modelled by [string] (one [ascii] per character), which
    covers ASCII text: [str.lower] and the whitespace test of [str.split] are
    modelled on the ASCII range only. *)

From Stdlib Require Import String Ascii List ZArith Lia Bool.
Import ListNotations.

Open Scope string_scope.
Open Scope Z_scope.

(** ** Python string primitives *)

Module PyStr.

(** [str.isspace] on an ASCII character: tab, line feed, vertical tab, form
    feed, carriage return, the four separators 0x1c..0x1f, and blank. *)
Definition isspace (c : ascii) : bool :=
  let n := nat_of_ascii c in
  ((9 <=? n) && (n <=? 13) || (28 <=? n) && (n <=? 31) || (n =? 32))%nat.

(** [str.lower] on one ASCII character. *)
Definition lower_char (c : ascii) : ascii :=
  let n := nat_of_ascii c in
  if ((65 <=? n) && (n <=? 90))%nat then ascii_of_nat (n + 32) else c.

(** [s.lower()]. *)
Fixpoint lower (s : string) : string :=
  match s with
  | EmptyString => EmptyString
  | String c s' => String (lower_char c) (lower s')
  end.

(** [s.lstrip()]. *)
Fixpoint lstrip (s : string) : string :=
  match s with
  | EmptyString => EmptyString
  | String c s' => if isspace c then lstrip s' else s
  end.

(** [s.rstrip()]. *)
Fixpoint rstrip (s : string) : string :=
  match s with
  | EmptyString => EmptyString
  | String c s' =>
      match rstrip s' with
      | EmptyString => if isspace c then EmptyString else String c EmptyString
      | r => String c r
      end
  end.

(** [s.strip()]. *)
Definition strip (s : string) : string := rstrip (lstrip s).

(** The scanning loop of [s.split()]: [cur] is the word being read, if any. *)
Fixpoint split_from (cur : option string) (s : string) : list string :=
  match s with
  | EmptyString =>
      match cur with
      | Some w => [w]
      | None => []
      end
  | String c s' =>
      if isspace c then
        match cur with
        | Some w => w :: split_from None s'
        | None => split_from None s'
        end
      else
        match cur with
        | Some w => split_from (Some (w ++ String c EmptyString)) s'
        | None => split_from (Some (String c EmptyString)) s'
        end
  end.

(** [s.split()] with no separator: the maximal runs of non-whitespace. *)
Definition split (s : string) : list string := split_from None s.

(** [sep.join(parts)]. *)
Fixpoint join (sep : string) (parts : list string) : string :=
  match parts with
  | [] => EmptyString
  | [p] => p
  | p :: ps => p ++ sep ++ join sep ps
  end.

(** [c in s] for a character. *)
Fixpoint has_char (c : ascii) (s : string) : bool :=
  match s with
  | EmptyString => false
  | String c' s' => Ascii.eqb c c' || has_char c s'
  end.

(** [str.isdigit] on one ASCII character. *)
Definition isdigit (c : ascii) : bool :=
  let n := nat_of_ascii c in ((48 <=? n) && (n <=? 57))%nat.

(** [all(c.isdigit() for c in s)]. *)
Fixpoint all_digits (s : string) : bool :=
  match s with
  | EmptyString => true
  | String c s' => isdigit c && all_digits s'
  end.

(** [sub in s]: prefix test, then scanning. *)
Fixpoint contains (sub s : string) : bool :=
  String.prefix sub s ||
  match s with
  | EmptyString => false
  | String _ s' => contains sub s'
  end.

(** The line feed, and the one-character text the handlers join lines with. *)
Definition lf : ascii := ascii_of_nat 10.

Definition nl : string := String lf EmptyString.

(** [s.split(sep)] for a one-character separator: the pieces between the
    separators, empty ones included. *)
Fixpoint split_on (sep : ascii) (s : string) : list string :=
  match s with
  | EmptyString => [EmptyString]
  | String c s' =>
      if Ascii.eqb c sep then EmptyString :: split_on sep s'
      else
        match split_on sep s' with
        | w :: ws => String c w :: ws
        | [] => [String c EmptyString]
        end
  end.

(** [any(not c.isspace() for c in s)]. *)
Fixpoint has_nonspace (s : string) : bool :=
  match s with
  | EmptyString => false
  | String c s' => negb (isspace c) || has_nonspace s'
  end.

(** [not any(c.isspace() for c in s)]. *)
Fixpoint all_nonspace (s : string) : bool :=
  match s with
  | EmptyString => true
  | String c s' => negb (isspace c) && all_nonspace s'
  end.

End PyStr.

(** ** Exceptions *)

(** The exceptions the program raises.  [ValueError] is raised by the handlers
    themselves and by a failed unpacking; the other three are the failure
    kinds of [Record] and [AddressBook]. *)
Inductive exn : Type :=
| ValueError (msg : string)
| FormatError (msg : string)
| NotFoundError (msg : string)
| ConflictError (msg : string).

(** [str(e)]. *)
Definition str_exn (e : exn) : string :=
  match e with
  | ValueError m | FormatError m | NotFoundError m | ConflictError m => m
  end.

(** ** Calendar dates

    [record.py] stores a birthday as a calendar date and [address_book.py]
    does date arithmetic on it.  The definitions follow the proleptic
    Gregorian calendar of Python's [datetime.date]. *)

Record Date : Type := mkDate { year : Z; month : Z; day : Z }.

Module Cal.

Definition is_leap (y : Z) : bool :=
  (y mod 4 =? 0) && (negb (y mod 100 =? 0) || (y mod 400 =? 0)).

Definition days_in_month (y m : Z) : Z :=
  if m =? 2 then (if is_leap y then 29 else 28)
  else if (m =? 4) || (m =? 6) || (m =? 9) || (m =? 11) then 30
  else 31.

(** A date that exists in the calendar. *)
Definition valid (d : Date) : bool :=
  (1 <=? year d) && (year d <=? 9999) &&
  (1 <=? month d) && (month d <=? 12) &&
  (1 <=? day d) && (day d <=? days_in_month (year d) (month d)).

Definition days_before_year (y : Z) : Z :=
  let p := y - 1 in p * 365 + p / 4 - p / 100 + p / 400.

(** Days of year [y] before the first of month [m], for [m] in 1..12. *)
Definition days_before_month (y m : Z) : Z :=
  fold_right Z.add 0
    (map (days_in_month y) (map Z.of_nat (seq 1 (Z.to_nat (m - 1))))).

(** [d.toordinal()]: 1 for 0001-01-01. *)
Definition toordinal (d : Date) : Z :=
  days_before_year (year d) + days_before_month (year d) (month d) + day d.

(** [d.weekday()]: Monday is 0, Saturday 5, Sunday 6. *)
Definition weekday (d : Date) : Z := (toordinal d + 6) mod 7.

(** The day after [d]. *)
Definition next_day (d : Date) : Date :=
  if day d <? days_in_month (year d) (month d) then
    mkDate (year d) (month d) (day d + 1)
  else if month d <? 12 then mkDate (year d) (month d + 1) 1
  else mkDate (year d + 1) 1 1.

(** [d + timedelta(days=n)]. *)
Fixpoint add_days (n : nat) (d : Date) : Date :=
  match n with
  | O => d
  | S n' => add_days n' (next_day d)
  end.

Definition digit_val (c : ascii) : Z := Z.of_nat (nat_of_ascii c) - 48.

Definition digit_char (n : Z) : ascii := ascii_of_nat (48 + Z.to_nat (n mod 10)).

Definition dot : ascii := "."%char.

(** Modelled from the spec: the birthday text format of [record.py], which is
    not among the sources.  The layout is the fixed one of the specification,
    [DD.MM.YYYY]: two digits, a dot, two digits, a dot, four digits; any
    deviation, or a date that does not exist in the calendar, is malformed. *)
Definition parse (text : string) : option Date :=
  match list_ascii_of_string text with
  | [d1; d2; p1; m1; m2; p2; y1; y2; y3; y4] =>
      if forallb PyStr.isdigit [d1; d2; m1; m2; y1; y2; y3; y4]
         && Ascii.eqb p1 dot && Ascii.eqb p2 dot
      then
        let d := mkDate
                   (digit_val y1 * 1000 + digit_val y2 * 100
                    + digit_val y3 * 10 + digit_val y4)
                   (digit_val m1 * 10 + digit_val m2)
                   (digit_val d1 * 10 + digit_val d2) in
        if valid d then Some d else None
      else None
  | _ => None
  end.

(** Modelled from the spec: how [record.py] renders a stored birthday, in the
    same [DD.MM.YYYY] layout it is read in. *)
Definition str_date (d : Date) : string :=
  string_of_list_ascii
    [digit_char (day d / 10); digit_char (day d); dot;
     digit_char (month d / 10); digit_char (month d); dot;
     digit_char (year d / 1000); digit_char (year d / 100);
     digit_char (year d / 10); digit_char (year d)].

End Cal.

(** ** record.py: a contact *)

Record Phone : Type := mkPhone { value : string }.

(** The attributes the handlers read: [record.name], [record.phones],
    [record.birthday] ([None] until one is set). *)
Record ContactRecord : Type := mkRecord {
  name : string;
  phones : list Phone;
  birthday : option Date
}.

Module Rec.

(** Modelled from the spec: the digit count [N] of the phone format rule in
    [record.py]; the scenario of the specification uses the ten-digit phone
    [1234567890]. *)
Definition phone_digits : nat := 10.

(** Modelled from the spec: the phone format rule of [record.py], a string of
    exactly [N] decimal digits. *)
Definition valid_phone (v : string) : bool :=
  (String.length v =? phone_digits)%nat && PyStr.all_digits v.

(** Modelled from the spec: [Record(name)] of [record.py], a contact with no
    phone and no birthday. *)
Definition init (nm : string) : ContactRecord := mkRecord nm [] None.

(** Modelled from the spec: [Record.add_phone] of [record.py].  The value is
    validated and then appended; an equal phone already stored is not
    rejected. *)
Definition add_phone (v : string) (r : ContactRecord) : exn + ContactRecord :=
  if valid_phone v then
    inr (mkRecord (name r) (phones r ++ [mkPhone v])%list (birthday r))
  else inl (FormatError "Invalid phone number format.").

(** Modelled from the spec: [Record.find_phone] of [record.py], the first
    entry with exactly this value, if any. *)
Definition find_phone (v : string) (r : ContactRecord) : option Phone :=
  List.find (fun p => String.eqb (value p) v) (phones r).

(** Replaces the first entry of value [old] by [new], in place. *)
Fixpoint replace_first (old new : string) (ps : list Phone) : list Phone :=
  match ps with
  | [] => []
  | p :: ps' =>
      if String.eqb (value p) old then mkPhone new :: ps'
      else p :: replace_first old new ps'
  end.

(** Removes the first entry of value [v]. *)
Fixpoint remove_first (v : string) (ps : list Phone) : list Phone :=
  match ps with
  | [] => []
  | p :: ps' =>
      if String.eqb (value p) v then ps' else p :: remove_first v ps'
  end.

(** Modelled from the spec: [Record.edit_phone] of [record.py].  The new value
    is validated, an absent old value is a [NotFoundError], and otherwise the
    entry is replaced where it stands. *)
Definition edit_phone (old new : string) (r : ContactRecord)
  : exn + ContactRecord :=
  if valid_phone new then
    match find_phone old r with
    | Some _ =>
        inr (mkRecord (name r) (replace_first old new (phones r)) (birthday r))
    | None => inl (NotFoundError "Phone number not found.")
    end
  else inl (FormatError "Invalid phone number format.").

(** Modelled from the spec: [Record.remove_phone] of [record.py]. *)
Definition remove_phone (v : string) (r : ContactRecord)
  : exn + ContactRecord :=
  match find_phone v r with
  | Some _ => inr (mkRecord (name r) (remove_first v (phones r)) (birthday r))
  | None => inl (NotFoundError "Phone number not found.")
  end.

(** Modelled from the spec: [Record.add_birthday] of [record.py].  The text is
    parsed; a stored birthday is overwritten. *)
Definition add_birthday (text : string) (r : ContactRecord)
  : exn + ContactRecord :=
  match Cal.parse text with
  | Some d => inr (mkRecord (name r) (phones r) (Some d))
  | None => inl (FormatError "Invalid date format. Use DD.MM.YYYY")
  end.

(** [str(phone)]. *)
Definition str_phone (p : Phone) : string := value p.

(** [str(record.birthday)], as an f-string formats it: the text [None] when no
    birthday is set. *)
Definition str_birthday (b : option Date) : string :=
  match b with
  | Some d => Cal.str_date d
  | None => "None"
  end.

(** Modelled from the spec: [str(record)] of [record.py], one text holding the
    name, the phones joined by commas, and the birthday if there is one. *)
Definition str_record (r : ContactRecord) : string :=
  "Contact name: " ++ name r ++ ", phones: "
  ++ PyStr.join ", " (map str_phone (phones r))
  ++ match birthday r with
     | Some d => ", birthday: " ++ Cal.str_date d
     | None => EmptyString
     end.

End Rec.

(** ** address_book.py: the directory *)

(** The entries of the dictionary, in insertion order: key and record. *)
Definition AddressBook : Type := list (string * ContactRecord).

Module Book.

(** Modelled from the spec: [AddressBook.find] of [address_book.py], the
    lookup of the exact key; [None] when absent. *)
Fixpoint find (nm : string) (book : AddressBook) : option ContactRecord :=
  match book with
  | [] => None
  | (k, r) :: rest => if String.eqb k nm then Some r else find nm rest
  end.

(** The record object held under [key] after a method changed it in place:
    the entry keeps its position. *)
Fixpoint store (key : string) (r : ContactRecord) (book : AddressBook)
  : AddressBook :=
  match book with
  | [] => []
  | (k, r0) :: rest =>
      if String.eqb k key then (k, r) :: rest
      else (k, r0) :: store key r rest
  end.

(** Modelled from the spec: [AddressBook.add_record] of [address_book.py].  A
    name that is already a key is a [ConflictError]; otherwise the record is
    inserted under its name, last in enumeration order. *)
Definition add_record (r : ContactRecord) (book : AddressBook)
  : exn + AddressBook :=
  match find (name r) book with
  | Some _ => inl (ConflictError "Contact already exists.")
  | None => inr (book ++ [(name r, r)])%list
  end.

(** [book.values()]. *)
Definition values (book : AddressBook) : list ContactRecord := map snd book.

(** Modelled from the spec: this year's occurrence of the birthday's month and
    day, rolled to next year when it has already passed relative to [today];
    [None] when that year has no such day (29 February). *)
Definition occurrence (today b : Date) : option Date :=
  let passed :=
    (month b <? month today)
    || ((month b =? month today) && (day b <? day today)) in
  let occ :=
    mkDate (if passed then year today + 1 else year today) (month b) (day b) in
  if Cal.valid occ then Some occ else None.

(** Modelled from the spec: the window [[today, today + window_days]], both
    ends included. *)
Definition in_window (today : Date) (window_days : Z) (occ : Date) : bool :=
  (Cal.toordinal today <=? Cal.toordinal occ)
  && (Cal.toordinal occ <=? Cal.toordinal today + window_days).

(** Modelled from the spec: the weekend policy.  An occurrence on a Saturday
    or a Sunday is congratulated on the following Monday. *)
Definition congratulation_date (occ : Date) : Date :=
  if Cal.weekday occ =? 5 then Cal.add_days 2 occ
  else if Cal.weekday occ =? 6 then Cal.add_days 1 occ
  else occ.

(** Modelled from the spec: whether a contact is due, and on what date. *)
Definition upcoming_entry (today : Date) (window_days : Z) (r : ContactRecord)
  : option (ContactRecord * Date) :=
  match birthday r with
  | None => None
  | Some b =>
      match occurrence today b with
      | Some occ =>
          if in_window today window_days occ
          then Some (r, congratulation_date occ)
          else None
      | None => None
      end
  end.

(** Modelled from the spec: the result order, ascending by congratulation
    date, ties broken by name. *)
Definition entry_leb (a b : ContactRecord * Date) : bool :=
  (Cal.toordinal (snd a) <? Cal.toordinal (snd b))
  || ((Cal.toordinal (snd a) =? Cal.toordinal (snd b))
      && String.leb (name (fst a)) (name (fst b))).

Fixpoint insert_sorted (e : ContactRecord * Date)
  (l : list (ContactRecord * Date)) : list (ContactRecord * Date) :=
  match l with
  | [] => [e]
  | x :: l' => if entry_leb e x then e :: l else x :: insert_sorted e l'
  end.

Definition sort_entries (l : list (ContactRecord * Date))
  : list (ContactRecord * Date) :=
  fold_right insert_sorted [] l.

(** The due contacts among [rs], in enumeration order. *)
Fixpoint due_entries (today : Date) (window_days : Z)
  (rs : list ContactRecord) : list (ContactRecord * Date) :=
  match rs with
  | [] => []
  | r :: rs' =>
      match upcoming_entry today window_days r with
      | Some e => e :: due_entries today window_days rs'
      | None => due_entries today window_days rs'
      end
  end.

(** Modelled from the spec: [upcoming_birthdays(today, window_days)] of
    [address_book.py], the due contacts with their congratulation dates. *)
Definition upcoming_birthdays (today : Date) (window_days : Z)
  (book : AddressBook) : list (ContactRecord * Date) :=
  sort_entries (due_entries today window_days (values book)).

(** Modelled from the spec: one element of the result as the caller sees it.
    The specification returns each due contact together with its
    congratulation date and has that date as the one shown to the user; the
    handler shows [.name], [.birthday] and [.phones] of the element.  So the
    element carries the contact's name and phones and, as its birthday, the
    congratulation date; the stored contact is not touched. *)
Definition reminder (e : ContactRecord * Date) : ContactRecord :=
  mkRecord (name (fst e)) (phones (fst e)) (Some (snd e)).

(** Modelled from the spec: [AddressBook.get_upcoming_birthdays] of
    [address_book.py] as the handler calls it, with the window of seven days
    and the current date [today]: one element for each due contact, in the
    order of the result. *)
Definition get_upcoming_birthdays (today : Date) (book : AddressBook)
  : list ContactRecord :=
  map reminder (upcoming_birthdays today 7 book).

End Book.

(** ** Handlers run on the shared book

    A handler reads and changes the one [AddressBook] of the session and may
    raise; what it changed before raising stays changed. *)

Definition M (A : Type) : Type := AddressBook -> (exn + A) * AddressBook.

Definition ret {A : Type} (a : A) : M A := fun book => (inr a, book).

Definition raise {A : Type} (e : exn) : M A := fun book => (inl e, book).

Definition bind {A B : Type} (m : M A) (k : A -> M B) : M B :=
  fun book =>
    match m book with
    | (inr a, book') => k a book'
    | (inl e, book') => (inl e, book')
    end.

Notation "x <- m ;; k" := (bind m (fun x => k))
  (at level 61, m at next level, right associativity).
Notation "m ;;; k" := (bind m (fun _ => k))
  (at level 61, right associativity).

(** A computation on a local object, which cannot touch the book. *)
Definition lift {A : Type} (r : exn + A) : M A := fun book => (r, book).

(** [book.find(name)]. *)
Definition find (nm : string) : M (option ContactRecord) :=
  fun book => (inr (Book.find nm book), book).

(** [book.add_record(record)]. *)
Definition add_record (r : ContactRecord) : M unit :=
  fun book =>
    match Book.add_record r book with
    | inr book' => (inr tt, book')
    | inl e => (inl e, book)
    end.

(** A mutating method called on the record object [r] that the book holds
    under [key]: the book sees the change. *)
Definition on_record (key : string) (r : ContactRecord)
  (method : ContactRecord -> exn + ContactRecord) : M unit :=
  fun book =>
    match method r with
    | inr r' => (inr tt, Book.store key r' book)
    | inl e => (inl e, book)
    end.

(** ** handlers.py *)

(** Modelled from the spec: the exception classes of the three failure kinds
    of [record.py] and [address_book.py] are not among the sources; the
    command layer is said to catch every failure the core raises, so they
    count among [(KeyError, ValueError, IndexError)]. *)
Definition is_input_error (e : exn) : bool :=
  match e with
  | ValueError _ => true
  | FormatError _ | NotFoundError _ | ConflictError _ => true
  end.

(** The decorator [input_error]:
    [try: return func(...) except (KeyError, ValueError, IndexError) as e:
    return str(e)]. *)
Definition input_error (func : M string) : M string :=
  fun book =>
    match func book with
    | (inr response, book') => (inr response, book')
    | (inl e, book') =>
        if is_input_error e then (inr (str_exn e), book') else (inl e, book')
    end.

(** [bool(text)] of a string: a text counts when it is not empty. *)
Definition truthy (text : string) : bool :=
  negb (String.eqb text EmptyString).

(** The body of [add_contact].  Matching [args] against
    [name :: phone :: optional_args] is the test [len(args) < 2] followed by
    [name, phone, *optional_args = args]; [bday] is
    [optional_args[0] if optional_args else None], and [if birthday:] holds
    of a text that is not empty. *)
Definition add_contact_func (args : list string) : M string :=
  match args with
  | nm :: phone :: optional_args =>
      let bday := hd_error optional_args in
      existing_record <- find nm ;;
      match existing_record with
      | Some r =>
          if existsb (fun p => String.eqb phone (value p)) (phones r) then
            ret "Contact with this name and phone number already exists."
          else
            on_record nm r (Rec.add_phone phone) ;;;
            ret "Contact updated."
      | None =>
          record <- lift (Rec.add_phone phone (Rec.init nm)) ;;
          record <- match bday with
                    | Some text =>
                        if truthy text
                        then lift (Rec.add_birthday text record)
                        else ret record
                    | None => ret record
                    end ;;
          add_record record ;;;
          ret "Contact added."
      end
  | _ => raise (ValueError "Error: Give me name and phone please.")
  end.

Definition add_contact (args : list string) : M string :=
  input_error (add_contact_func args).

(** The body of [change_contact]: three arguments change a phone, two remove
    one, any other count is a [ValueError]. *)
Definition change_contact_func (args : list string) : M string :=
  match args with
  | [nm; old_phone; new_phone] =>
      record <- find nm ;;
      match record with
      | Some r =>
          on_record nm r (Rec.edit_phone old_phone new_phone) ;;;
          ret "Phone number updated."
      | None => ret "Contact not found."
      end
  | [nm; phone_to_remove] =>
      record <- find nm ;;
      match record with
      | Some r =>
          match Rec.find_phone phone_to_remove r with
          | Some _ =>
              on_record nm r (Rec.remove_phone phone_to_remove) ;;;
              ret "Phone number removed."
          | None => ret "Phone number not found in the contact."
          end
      | None => ret "Contact not found."
      end
  | _ =>
      raise (ValueError
        "Error: Give me name, old phone and new phone please or name and phone to remove.")
  end.

Definition change_contact (args : list string) : M string :=
  input_error (change_contact_func args).

Definition show_phone_func (args : list string) : M string :=
  match args with
  | [nm] =>
      record <- find nm ;;
      match record with
      | Some r =>
          ret (nm ++ ": " ++ PyStr.join ", " (map Rec.str_phone (phones r)))
      | None => ret "Contact not found."
      end
  | _ => raise (ValueError "Error: Give me name, please.")
  end.

Definition show_phone (args : list string) : M string :=
  input_error (show_phone_func args).

(** The body of [show_all]; [not book] holds of the book without entries. *)
Definition show_all_func : M string :=
  fun book =>
    match book with
    | [] => (inr "The address book is empty.", book)
    | _ => (inr (PyStr.join PyStr.nl (map Rec.str_record (Book.values book))),
            book)
    end.

Definition show_all : M string := input_error show_all_func.

Definition add_birthday_func (args : list string) : M string :=
  match args with
  | [nm; bday] =>
      record <- find nm ;;
      match record with
      | Some r =>
          on_record nm r (Rec.add_birthday bday) ;;;
          ret "Birthday added."
      | None => ret "Contact not found."
      end
  | _ => raise (ValueError "Error: Give me name and birthday please.")
  end.

Definition add_birthday (args : list string) : M string :=
  input_error (add_birthday_func args).

Definition show_birthday_func (args : list string) : M string :=
  match args with
  | [nm] =>
      record <- find nm ;;
      match record with
      | Some r => ret (nm ++ ": " ++ Rec.str_birthday (birthday r))
      | None => ret "Contact not found."
      end
  | _ => raise (ValueError "Error: Give me name, please.")
  end.

Definition show_birthday (args : list string) : M string :=
  input_error (show_birthday_func args).

(** One line of the [birthdays] reply: name, [record.birthday], phones. *)
Definition birthday_line (r : ContactRecord) : string :=
  "Upcoming birthday within the next week: " ++ name r ++ " - "
  ++ Rec.str_birthday (birthday r) ++ ", Phones: "
  ++ PyStr.join ", " (map Rec.str_phone (phones r)).

(** The body of [birthdays]; [today] is the current date that
    [get_upcoming_birthdays] reads from the clock. *)
Definition birthdays_func (today : Date) (args : list string) : M string :=
  fun book =>
    match Book.get_upcoming_birthdays today book with
    | [] => (inr "No birthdays in the next 7 days.", book)
    | upcoming => (inr (PyStr.join PyStr.nl (map birthday_line upcoming)), book)
    end.

Definition birthdays (today : Date) (args : list string) : M string :=
  input_error (birthdays_func today args).

(** ** main.py *)

Definition invalid_command : string :=
  "Invalid command. Available commands are: hello, add, change, phone, all, add-birthday, show-birthday, birthdays, close, exit, bye.".

(** [handle_action]: the [match] on the command word. *)
Definition handle_action (today : Date) (action : string) (args : list string)
  : M string :=
  if String.eqb action "hello" then ret "How can I help you?"
  else if String.eqb action "add" then add_contact args
  else if String.eqb action "change" then change_contact args
  else if String.eqb action "phone" then show_phone args
  else if String.eqb action "all" then show_all
  else if String.eqb action "add-birthday" then add_birthday args
  else if String.eqb action "show-birthday" then show_birthday args
  else if String.eqb action "birthdays" then birthdays today args
  else if String.eqb action "close" || String.eqb action "exit"
          || String.eqb action "bye" then ret "Good bye!"
  else ret invalid_command.

(** [parse_input]: [action, *args = user_input.split()], then
    [action = action.strip().lower()].  The starred unpacking needs at least
    one token and raises [ValueError] otherwise. *)
Definition parse_input (user_input : string) : exn + (string * list string) :=
  match PyStr.split user_input with
  | [] =>
      inl (ValueError "not enough values to unpack (expected at least 1, got 0)")
  | action :: args => inr (PyStr.lower (PyStr.strip action), args)
  end.

(** One turn of the loop of [main] on the line read: parse, dispatch, and the
    response to print. *)
Definition process_line (today : Date) (user_input : string) : M string :=
  p <- lift (parse_input user_input) ;;
  handle_action today (fst p) (snd p).

(** How the loop stands after the lines typed: ended by the exit command,
    ended by an exception raised while a line was processed, or back at
    [input()] with every line answered.  What [input()] does next, wait for a
    line or raise at the end of the input stream, is not decided by the lines
    typed and is left out. *)
Inductive outcome : Type :=
| Exited
| Crashed (e : exn)
| Waiting.

(** The loop of [main] over the lines typed: the responses printed, how the
    session ended, and the book it left. *)
Fixpoint main_loop (today : Date) (inputs : list string) (book : AddressBook)
  : list string * outcome * AddressBook :=
  match inputs with
  | [] => ([], Waiting, book)
  | user_input :: rest =>
      match parse_input user_input with
      | inl e => ([], Crashed e, book)
      | inr (action, args) =>
          match handle_action today action args book with
          | (inl e, book') => ([], Crashed e, book')
          | (inr response, book') =>
              if existsb (String.eqb action) ["close"; "exit"; "bye"]
              then ([response], Exited, book')
              else
                let '(printed, o, book'') := main_loop today rest book' in
                (response :: printed, o, book'')
          end
      end
  end.

(** ** Vocabulary of the statements *)

Definition duplicate_message : string :=
  "Contact with this name and phone number already exists.".

(** The birthday a new contact is given by the optional argument: none when
    the argument is missing or empty. *)
Definition new_birthday (optional_args : list string) : option Date :=
  match optional_args with
  | t :: _ => if String.eqb t EmptyString then None else Cal.parse t
  | [] => None
  end.

(** The optional birthday argument is missing, empty, or well-formed. *)
Definition birthday_arg_ok (optional_args : list string) : Prop :=
  match optional_args with
  | t :: _ => t = EmptyString \/ Cal.parse t <> None
  | [] => True
  end.

(** A month and a day of that month, in the year of the date. *)
Definition month_day_ok (d : Date) : Prop :=
  1 <= month d <= 12 /\ 1 <= day d <= Cal.days_in_month (year d) (month d).

(** A word under construction: free of whitespace and not empty. *)
Definition word_ok (w : string) : Prop :=
  PyStr.all_nonspace w = true /\ w <> EmptyString.

(** The command words [handle_action] knows. *)
Definition command_words : list string :=
  ["hello"; "add"; "change"; "phone"; "all"; "add-birthday"; "show-birthday";
   "birthdays"; "close"; "exit"; "bye"].

(** The replies of the handlers that report a change of the book. *)
Definition mutating_replies : list string :=
  ["Contact added."; "Contact updated."; "Phone number updated.";
   "Phone number removed."; "Birthday added."].

(** The replies of [add_contact] that are not the text of a failure. *)
Definition upsert_replies : list string :=
  ["Contact added."; "Contact updated."; duplicate_message].

(** The keys of the book are distinct and every record is held under its own
    name. *)
Definition book_ok (book : AddressBook) : Prop :=
  NoDup (map fst book) /\ Forall (fun e => name (snd e) = fst e) book.

(** No contact lists the same phone twice. *)
Definition phones_nodup (book : AddressBook) : Prop :=
  Forall (fun e => NoDup (map value (phones (snd e)))) book.

(** What one command can do to the book: nothing, change the record held
    under one key where it stands without renaming it, or insert one record
    under a new key, last. *)
Inductive book_step (book : AddressBook) : AddressBook -> Prop :=
| step_same : book_step book book
| step_mutate nm r r' :
    Book.find nm book = Some r ->
    name r' = name r ->
    book_step book (Book.store nm r' book)
| step_insert nm r' :
    Book.find nm book = None ->
    name r' = nm ->
    book_step book (book ++ [(nm, r')])%list.

(** ** Sample data: the scenario of the specification *)

Definition anna : ContactRecord :=
  mkRecord "Anna" [mkPhone "1234567890"] None.

Definition anna_born : ContactRecord :=
  mkRecord "Anna" [mkPhone "1234567890"] (Some (mkDate 1990 3 15)).

Definition book_anna : AddressBook := [("Anna", anna)].

Definition book_anna_born : AddressBook := [("Anna", anna_born)].

(** 14.03.2025, a Friday; the day after is a Saturday. *)
Definition friday : Date := mkDate 2025 3 14.

(** * Properties *)

(** ** The book as a store *)

Lemma find_store_same key r book :
  Book.find key book <> None -> Book.find key (Book.store key r book) = Some r.
Proof.
  induction book as [|[k r0] rest IH]; simpl; intros H.
  - congruence.
  - destruct (String.eqb k key) eqn:E; simpl; rewrite E; auto.
Qed.

Lemma find_store_other key key' r book :
  key' <> key -> Book.find key' (Book.store key r book) = Book.find key' book.
Proof.
  intros Hne. induction book as [|[k r0] rest IH]; simpl; auto.
  destruct (String.eqb k key) eqn:E; simpl.
  - apply String.eqb_eq in E. subst k.
    destruct (String.eqb key key') eqn:E'; auto.
    apply String.eqb_eq in E'. congruence.
  - rewrite IH. reflexivity.
Qed.

Lemma store_keys key r book :
  map fst (Book.store key r book) = map fst book.
Proof.
  induction book as [|[k r0] rest IH]; simpl; auto.
  destruct (String.eqb k key); simpl; congruence.
Qed.

Lemma store_absent key r book :
  Book.find key book = None -> Book.store key r book = book.
Proof.
  induction book as [|[k r0] rest IH]; simpl; auto.
  destruct (String.eqb k key); intros H; [discriminate|].
  rewrite IH; auto.
Qed.

Lemma find_app_new key r book :
  Book.find key book = None ->
  Book.find key (book ++ [(key, r)])%list = Some r.
Proof.
  induction book as [|[k r0] rest IH]; simpl.
  - rewrite String.eqb_refl. reflexivity.
  - destruct (String.eqb k key); [discriminate | exact IH].
Qed.

(** ** Phones of a contact *)

Lemma existsb_phone_In phone ps :
  existsb (fun p => String.eqb phone (value p)) ps = true <->
  In phone (map value ps).
Proof.
  rewrite existsb_exists, in_map_iff. split.
  - intros [p [Hin Heq]]. apply String.eqb_eq in Heq. exists p. auto.
  - intros [p [Heq Hin]]. exists p. split; auto. apply String.eqb_eq. auto.
Qed.

Lemma find_phone_present v r :
  In v (map value (phones r)) -> exists p, Rec.find_phone v r = Some p.
Proof.
  unfold Rec.find_phone. induction (phones r) as [|p ps IH]; simpl.
  - tauto.
  - intros [H | H].
    + apply String.eqb_eq in H. rewrite H. eauto.
    + destruct (String.eqb (value p) v); eauto.
Qed.

Lemma find_phone_absent v r :
  ~ In v (map value (phones r)) -> Rec.find_phone v r = None.
Proof.
  unfold Rec.find_phone. induction (phones r) as [|p ps IH]; simpl; auto.
  intros H. destruct (String.eqb (value p) v) eqn:E.
  - apply String.eqb_eq in E. tauto.
  - apply IH. tauto.
Qed.

(** [edit_phone] keeps every entry in its place: the entries before the first
    match and after it are untouched. *)
Lemma replace_first_position old new l1 p l2 :
  ~ In old (map value l1) -> value p = old ->
  Rec.replace_first old new (l1 ++ p :: l2) = (l1 ++ mkPhone new :: l2)%list.
Proof.
  intros Hni Hp. induction l1 as [|q l1 IH]; simpl in *.
  - apply String.eqb_eq in Hp. rewrite Hp. reflexivity.
  - destruct (String.eqb (value q) old) eqn:E.
    + apply String.eqb_eq in E. tauto.
    + rewrite IH; tauto.
Qed.

Lemma replace_first_length old new ps :
  List.length (Rec.replace_first old new ps) = List.length ps.
Proof.
  induction ps as [|p ps IH]; simpl; auto.
  destruct (String.eqb (value p) old); simpl; auto.
Qed.

Lemma remove_first_position v l1 p l2 :
  ~ In v (map value l1) -> value p = v ->
  Rec.remove_first v (l1 ++ p :: l2) = (l1 ++ l2)%list.
Proof.
  intros Hni Hp. induction l1 as [|q l1 IH]; simpl in *.
  - apply String.eqb_eq in Hp. rewrite Hp. reflexivity.
  - destruct (String.eqb (value q) v) eqn:E.
    + apply String.eqb_eq in E. tauto.
    + rewrite IH; tauto.
Qed.

(** ** add_contact *)

Lemma add_contact_duplicate book nm phone optional_args r :
  Book.find nm book = Some r ->
  In phone (map value (phones r)) ->
  add_contact (nm :: phone :: optional_args) book
  = (inr duplicate_message, book).
Proof.
  intros Hf Hin. apply existsb_phone_In in Hin.
  unfold add_contact, input_error, add_contact_func, bind, find.
  rewrite Hf, Hin. reflexivity.
Qed.

Lemma add_contact_append book nm phone optional_args r :
  Book.find nm book = Some r ->
  ~ In phone (map value (phones r)) ->
  Rec.valid_phone phone = true ->
  add_contact (nm :: phone :: optional_args) book
  = (inr "Contact updated.",
     Book.store nm
       (mkRecord (name r) (phones r ++ [mkPhone phone]) (birthday r)) book).
Proof.
  intros Hf Hni Hv.
  assert (He : existsb (fun p => String.eqb phone (value p)) (phones r) = false).
  { destruct (existsb _ _) eqn:E; auto. apply existsb_phone_In in E. tauto. }
  unfold add_contact, input_error, add_contact_func, bind, find, on_record.
  rewrite Hf, He. unfold Rec.add_phone. rewrite Hv. reflexivity.
Qed.

Lemma add_contact_new book nm phone optional_args :
  Book.find nm book = None ->
  Rec.valid_phone phone = true ->
  birthday_arg_ok optional_args ->
  add_contact (nm :: phone :: optional_args) book
  = (inr "Contact added.",
     (book ++ [(nm, mkRecord nm [mkPhone phone] (new_birthday optional_args))])%list).
Proof.
  intros Hf Hv Hb.
  unfold add_contact, input_error, add_contact_func, bind, find, lift,
    add_record, Book.add_record.
  rewrite Hf. unfold Rec.add_phone, Rec.init. rewrite Hv. simpl.
  destruct optional_args as [|t rest]; simpl.
  - rewrite Hf. reflexivity.
  - unfold truthy. destruct (String.eqb t EmptyString) eqn:E; simpl.
    + rewrite Hf. reflexivity.
    + unfold Rec.add_birthday. simpl in Hb.
      destruct Hb as [Hb | Hb]; [apply String.eqb_eq in Hb; congruence|].
      destruct (Cal.parse t) eqn:P; [|congruence]. simpl.
      rewrite Hf. reflexivity.
Qed.

(** C1, as stated, fails: a new name with a phone that breaks the format rule
    is not added, and the reply is the text of the format failure. *)
Lemma add_contact_new_name_bad_phone :
  Book.find "Bob" book_anna = None /\
  add_contact ["Bob"; "abc"] book_anna
  = (inr "Invalid phone number format.", book_anna) /\
  fst (add_contact ["Bob"; "abc"] book_anna) <> inr "Contact added.".
Proof.
  split; [reflexivity | split; [reflexivity | discriminate]].
Qed.

(** C1, amended: for every book, name, phone and optional arguments,
    [add_contact] (i) with a name not in the book, a phone that satisfies the
    format rule and a birthday argument that is missing, empty or well-formed
    adds, last in the book, a new contact with that one phone and that
    birthday and replies "Contact added."; (ii) with a name in the book and a
    valid phone not on that contact appends the phone to the contact, where it
    stands in the book, and replies "Contact updated."; (iii) with a name in
    the book and a phone already on that contact replies with the duplicate
    message and leaves the book as it is. *)
Theorem add_contact_upsert book nm phone optional_args :
  (Book.find nm book = None ->
   Rec.valid_phone phone = true ->
   birthday_arg_ok optional_args ->
   add_contact (nm :: phone :: optional_args) book
   = (inr "Contact added.",
      (book ++ [(nm, mkRecord nm [mkPhone phone]
                       (new_birthday optional_args))])%list))
  /\ (forall r,
       Book.find nm book = Some r ->
       ~ In phone (map value (phones r)) ->
       Rec.valid_phone phone = true ->
       add_contact (nm :: phone :: optional_args) book
       = (inr "Contact updated.",
          Book.store nm
            (mkRecord (name r) (phones r ++ [mkPhone phone]) (birthday r))
            book))
  /\ (forall r,
       Book.find nm book = Some r ->
       In phone (map value (phones r)) ->
       add_contact (nm :: phone :: optional_args) book
       = (inr duplicate_message, book)).
Proof.
  split; [| split].
  - apply add_contact_new.
  - intros r. apply add_contact_append.
  - intros r. apply add_contact_duplicate.
Qed.

Lemma add_contact_upsert_witness :
  add_contact ["Anna"; "1234567890"; "15.03.1990"] []
  = (inr "Contact added.", book_anna_born)
  /\ add_contact ["Anna"; "0987654321"; "15.03.1990"] book_anna
     = (inr "Contact updated.",
        [("Anna",
          mkRecord "Anna" [mkPhone "1234567890"; mkPhone "0987654321"] None)])
  /\ add_contact ["Anna"; "1234567890"] book_anna
     = (inr duplicate_message, book_anna).
Proof.
  split; [| split].
  - apply (proj1 (add_contact_upsert [] "Anna" "1234567890" ["15.03.1990"])).
    + reflexivity.
    + reflexivity.
    + simpl. right. discriminate.
  - apply (proj1 (proj2 (add_contact_upsert book_anna "Anna" "0987654321"
                           ["15.03.1990"])) anna).
    + reflexivity.
    + simpl. intros [H | []]. discriminate H.
    + reflexivity.
  - apply (proj2 (proj2 (add_contact_upsert book_anna "Anna" "1234567890" []))
             anna).
    + reflexivity.
    + simpl. left. reflexivity.
Defined.

(** C2: for every book, when [add_contact] is called with a name that is in
    the book and a phone already present verbatim on that contact, whatever
    the optional arguments, the book is left exactly as it was and the reply
    is the duplicate message. *)
Theorem add_contact_duplicate_unchanged book nm phone optional_args r :
  Book.find nm book = Some r ->
  In phone (map value (phones r)) ->
  add_contact (nm :: phone :: optional_args) book
  = (inr duplicate_message, book).
Proof.
  apply add_contact_duplicate.
Qed.

Lemma add_contact_duplicate_unchanged_witness :
  add_contact ["Anna"; "1234567890"; "01.01.2000"] book_anna
  = (inr duplicate_message, book_anna).
Proof.
  apply (add_contact_duplicate_unchanged book_anna "Anna" "1234567890"
           ["01.01.2000"] anna).
  - reflexivity.
  - simpl. left. reflexivity.
Defined.

(** ** change_contact *)

Lemma change_contact_absent book nm :
  Book.find nm book = None ->
  forall a b,
    change_contact [nm; a; b] book = (inr "Contact not found.", book)
    /\ change_contact [nm; a] book = (inr "Contact not found.", book).
Proof.
  intros Hf a b.
  unfold change_contact, input_error, change_contact_func, bind, find.
  rewrite Hf. split; reflexivity.
Qed.

Lemma change_contact_edit book nm old_phone new_phone r :
  Book.find nm book = Some r ->
  In old_phone (map value (phones r)) ->
  Rec.valid_phone new_phone = true ->
  change_contact [nm; old_phone; new_phone] book
  = (inr "Phone number updated.",
     Book.store nm
       (mkRecord (name r)
          (Rec.replace_first old_phone new_phone (phones r)) (birthday r))
       book).
Proof.
  intros Hf Hin Hv.
  unfold change_contact, input_error, change_contact_func, bind, find,
    on_record, Rec.edit_phone.
  rewrite Hf, Hv.
  destruct (find_phone_present old_phone r Hin) as [p Hp]. rewrite Hp.
  reflexivity.
Qed.

Lemma change_contact_remove book nm phone r :
  Book.find nm book = Some r ->
  In phone (map value (phones r)) ->
  change_contact [nm; phone] book
  = (inr "Phone number removed.",
     Book.store nm
       (mkRecord (name r) (Rec.remove_first phone (phones r)) (birthday r))
       book).
Proof.
  intros Hf Hin.
  unfold change_contact, input_error, change_contact_func, bind, find,
    on_record, Rec.remove_phone.
  rewrite Hf.
  destruct (find_phone_present phone r Hin) as [p Hp]. rewrite Hp.
  reflexivity.
Qed.

(** C6, as stated, fails: with three arguments and a new phone that breaks
    the format rule the contact keeps its phone, and the reply is the text of
    the format failure. *)
Lemma change_contact_bad_new_phone :
  Book.find "Anna" book_anna = Some anna /\
  In "1234567890" (map value (phones anna)) /\
  change_contact ["Anna"; "1234567890"; "abc"] book_anna
  = (inr "Invalid phone number format.", book_anna) /\
  fst (change_contact ["Anna"; "1234567890"; "abc"] book_anna)
  <> inr "Phone number updated.".
Proof.
  split; [reflexivity |].
  split; [simpl; left; reflexivity |].
  split; [reflexivity | discriminate].
Qed.

(** C6, amended: for every book and name, [change_contact] (i) with three
    arguments, the name of a stored contact, a phone that is on the contact
    and a new phone that satisfies the format rule, replaces the first such
    phone by the new one where it stands and replies "Phone number updated.";
    (ii) with two arguments, the name of a stored contact and a phone that is
    on the contact, removes the first such phone and replies "Phone number
    removed."; (iii) with a name that is not in the book replies "Contact not
    found." in either arity and leaves the book as it is. *)
Theorem change_contact_cases book nm :
  (forall r old_phone new_phone,
      Book.find nm book = Some r ->
      In old_phone (map value (phones r)) ->
      Rec.valid_phone new_phone = true ->
      change_contact [nm; old_phone; new_phone] book
      = (inr "Phone number updated.",
         Book.store nm
           (mkRecord (name r)
              (Rec.replace_first old_phone new_phone (phones r)) (birthday r))
           book))
  /\ (forall r phone,
         Book.find nm book = Some r ->
         In phone (map value (phones r)) ->
         change_contact [nm; phone] book
         = (inr "Phone number removed.",
            Book.store nm
              (mkRecord (name r) (Rec.remove_first phone (phones r))
                 (birthday r))
              book))
  /\ (Book.find nm book = None ->
      forall a b,
        change_contact [nm; a; b] book = (inr "Contact not found.", book)
        /\ change_contact [nm; a] book = (inr "Contact not found.", book)).
Proof.
  split; [| split].
  - intros r old_phone new_phone. apply change_contact_edit.
  - intros r phone. apply change_contact_remove.
  - apply change_contact_absent.
Qed.

Lemma change_contact_cases_witness :
  change_contact ["Anna"; "1234567890"; "0987654321"] book_anna
  = (inr "Phone number updated.",
     [("Anna", mkRecord "Anna" [mkPhone "0987654321"] None)])
  /\ change_contact ["Anna"; "1234567890"] book_anna
     = (inr "Phone number removed.", [("Anna", mkRecord "Anna" [] None)])
  /\ change_contact ["Bob"; "1234567890"; "0987654321"] book_anna
     = (inr "Contact not found.", book_anna)
  /\ change_contact ["Bob"; "1234567890"] book_anna
     = (inr "Contact not found.", book_anna).
Proof.
  split; [| split].
  - apply (proj1 (change_contact_cases book_anna "Anna") anna).
    + reflexivity.
    + simpl. left. reflexivity.
    + reflexivity.
  - apply (proj1 (proj2 (change_contact_cases book_anna "Anna")) anna).
    + reflexivity.
    + simpl. left. reflexivity.
  - apply (proj2 (proj2 (change_contact_cases book_anna "Bob"))).
    reflexivity.
Defined.

(** ** add_birthday *)

(** C7, as stated, fails: with the name of a stored contact and a text that
    names no calendar date nothing is stored, and the reply is the text of
    the format failure. *)
Lemma add_birthday_bad_date :
  Book.find "Anna" book_anna = Some anna /\
  add_birthday ["Anna"; "31.04.1990"] book_anna
  = (inr "Invalid date format. Use DD.MM.YYYY", book_anna) /\
  fst (add_birthday ["Anna"; "31.04.1990"] book_anna) <> inr "Birthday added.".
Proof.
  split; [reflexivity | split; [reflexivity | discriminate]].
Qed.

(** C7, amended: for every book, [add_birthday] with the name of a stored
    contact and a well-formed birthday text stores the date on that contact,
    over any earlier one, and replies "Birthday added."; with a name that is
    not in the book it replies "Contact not found." and leaves the book as it
    is. *)
Theorem add_birthday_cases book nm text :
  (forall r d,
      Book.find nm book = Some r ->
      Cal.parse text = Some d ->
      add_birthday [nm; text] book
      = (inr "Birthday added.",
         Book.store nm (mkRecord (name r) (phones r) (Some d)) book))
  /\ (Book.find nm book = None ->
      add_birthday [nm; text] book = (inr "Contact not found.", book)).
Proof.
  unfold add_birthday, input_error, add_birthday_func, bind, find, on_record,
    Rec.add_birthday.
  split.
  - intros r d Hf Hp. rewrite Hf, Hp. reflexivity.
  - intros Hf. rewrite Hf. reflexivity.
Qed.

Lemma add_birthday_cases_witness :
  add_birthday ["Anna"; "15.03.1990"] book_anna
  = (inr "Birthday added.", book_anna_born)
  /\ add_birthday ["Bob"; "15.03.1990"] book_anna
     = (inr "Contact not found.", book_anna).
Proof.
  split.
  - apply (proj1 (add_birthday_cases book_anna "Anna" "15.03.1990") anna
             (mkDate 1990 3 15)); reflexivity.
  - apply (proj2 (add_birthday_cases book_anna "Bob" "15.03.1990")).
    reflexivity.
Defined.

(** ** show_birthday *)

Lemma has_char_append_r c a t :
  PyStr.has_char c t = true -> PyStr.has_char c (a ++ t) = true.
Proof.
  intros H. induction a as [|x a IH]; simpl.
  - exact H.
  - rewrite IH. apply orb_true_r.
Qed.

Lemma has_colon_append a b :
  PyStr.has_char ":"%char (a ++ ": " ++ b) = true.
Proof.
  apply has_char_append_r. reflexivity.
Qed.

Lemma rendered_birthday_not_signal nm b :
  nm ++ ": " ++ b <> "Contact not found.".
Proof.
  intros H.
  assert (C : PyStr.has_char ":"%char (nm ++ ": " ++ b) = true)
    by apply has_colon_append.
  rewrite H in C. discriminate C.
Qed.

(** C10: for every book, [show_birthday] on the name of a stored contact that
    has no birthday replies "<name>: None"; and whenever its reply is
    "Contact not found.", it was called with exactly one argument, a name
    that is not in the book. *)
Theorem show_birthday_unset book :
  (forall nm r,
      Book.find nm book = Some r ->
      birthday r = None ->
      show_birthday [nm] book = (inr (nm ++ ": None"), book))
  /\ (forall args,
         fst (show_birthday args book) = inr "Contact not found." ->
         exists nm, args = [nm] /\ Book.find nm book = None).
Proof.
  unfold show_birthday, input_error, show_birthday_func, bind, find.
  split.
  - intros nm r Hf Hb. rewrite Hf, Hb. reflexivity.
  - intros args H.
    destruct args as [|nm [|x rest]]; simpl in H; try discriminate H.
    exists nm. split; [reflexivity |].
    destruct (Book.find nm book) as [r|]; [| reflexivity].
    simpl in H. injection H as H.
    exfalso. exact (rendered_birthday_not_signal _ _ H).
Qed.

Lemma show_birthday_unset_witness :
  show_birthday ["Anna"] book_anna = (inr "Anna: None", book_anna)
  /\ exists nm, ["Bob"] = [nm] /\ Book.find nm book_anna = None.
Proof.
  split.
  - apply (proj1 (show_birthday_unset book_anna) "Anna" anna); reflexivity.
  - apply (proj2 (show_birthday_unset book_anna) ["Bob"]). reflexivity.
Defined.

(** ** show_all *)

Lemma split_on_no_sep sep p :
  PyStr.has_char sep p = false -> PyStr.split_on sep p = [p].
Proof.
  induction p as [|c p IH]; simpl; intros H.
  - reflexivity.
  - apply orb_false_iff in H. destruct H as [Hc Hp].
    rewrite Ascii.eqb_sym, Hc, (IH Hp). reflexivity.
Qed.

Lemma split_on_piece sep p rest :
  PyStr.has_char sep p = false ->
  PyStr.split_on sep (p ++ String sep rest) = p :: PyStr.split_on sep rest.
Proof.
  induction p as [|c p IH]; simpl; intros H.
  - rewrite Ascii.eqb_refl. reflexivity.
  - apply orb_false_iff in H. destruct H as [Hc Hp].
    rewrite Ascii.eqb_sym, Hc, (IH Hp). reflexivity.
Qed.

(** Splitting a joined text at the separator gives the parts back, when no
    part holds the separator. *)
Lemma split_on_join sep parts :
  parts <> [] ->
  Forall (fun p => PyStr.has_char sep p = false) parts ->
  PyStr.split_on sep (PyStr.join (String sep EmptyString) parts) = parts.
Proof.
  induction parts as [|p ps IH]; intros Hne Hall; [congruence |].
  inversion Hall as [|? ? Hp Hps]; subst.
  destruct ps as [|q ps].
  - simpl. apply split_on_no_sep. exact Hp.
  - change (PyStr.join (String sep EmptyString) (p :: q :: ps))
      with (p ++ String sep EmptyString ++ PyStr.join (String sep EmptyString) (q :: ps)).
    change (String sep EmptyString ++ PyStr.join (String sep EmptyString) (q :: ps))
      with (String sep (PyStr.join (String sep EmptyString) (q :: ps))).
    rewrite split_on_piece by exact Hp.
    rewrite IH; [reflexivity | discriminate | exact Hps].
Qed.

(** C5: for every book, [show_all] replies "The address book is empty." when
    the book has no entries; otherwise its reply is the renderings of the
    stored contacts, one for each contact, in the order of the book, joined by
    line feeds, so that when no rendering holds a line feed the lines of the
    reply are exactly the renderings of the contacts in that order.  The book
    is left as it is. *)
Theorem show_all_enumerates book :
  show_all [] = (inr "The address book is empty.", [])
  /\ (book <> [] ->
      show_all book
      = (inr (PyStr.join PyStr.nl (map Rec.str_record (Book.values book))),
         book)
      /\ List.length (map Rec.str_record (Book.values book))
         = List.length book)
  /\ (book <> [] ->
      Forall (fun r => PyStr.has_char PyStr.lf (Rec.str_record r) = false)
        (Book.values book) ->
      exists reply,
        show_all book = (inr reply, book)
        /\ PyStr.split_on PyStr.lf reply
           = map Rec.str_record (Book.values book)).
Proof.
  split; [reflexivity |].
  assert (Hrun : book <> [] ->
                 show_all book
                 = (inr (PyStr.join PyStr.nl
                           (map Rec.str_record (Book.values book))), book)).
  { intros Hne. destruct book as [|e rest]; [congruence | reflexivity]. }
  split.
  - intros Hne. split; [exact (Hrun Hne) |].
    unfold Book.values. rewrite !length_map. reflexivity.
  - intros Hne Hall. eexists. split; [exact (Hrun Hne) |].
    apply split_on_join.
    + destruct book; [congruence | discriminate].
    + apply Forall_map. exact Hall.
Qed.

Lemma show_all_enumerates_witness :
  show_all book_anna_born
  = (inr "Contact name: Anna, phones: 1234567890, birthday: 15.03.1990",
     book_anna_born)
  /\ List.length (map Rec.str_record (Book.values book_anna_born)) = 1%nat.
Proof.
  apply (proj1 (proj2 (show_all_enumerates book_anna_born))).
  discriminate.
Defined.

(** ** The calendar of the weekend policy *)

Lemma valid_month_day_ok d : Cal.valid d = true -> month_day_ok d.
Proof.
  unfold Cal.valid, month_day_ok. intros H.
  repeat (apply andb_true_iff in H; destruct H as [H ?]).
  lia.
Qed.

Lemma days_in_month_bounds y m : 28 <= Cal.days_in_month y m <= 31.
Proof.
  unfold Cal.days_in_month.
  destruct (m =? 2); [destruct (Cal.is_leap y); lia |].
  destruct ((m =? 4) || (m =? 6) || (m =? 9) || (m =? 11)); lia.
Qed.

Lemma days_before_month_succ y m :
  1 <= m <= 11 ->
  Cal.days_before_month y (m + 1)
  = Cal.days_before_month y m + Cal.days_in_month y m.
Proof.
  intros H.
  assert (Hm : m = 1 \/ m = 2 \/ m = 3 \/ m = 4 \/ m = 5 \/ m = 6 \/ m = 7
               \/ m = 8 \/ m = 9 \/ m = 10 \/ m = 11) by lia.
  unfold Cal.days_before_month, Cal.days_in_month.
  repeat (destruct Hm as [Hm | Hm];
          [subst m; destruct (Cal.is_leap y); reflexivity |]).
  subst m; destruct (Cal.is_leap y); reflexivity.
Qed.

Lemma days_before_december y :
  Cal.days_before_month y 12 + 31 = if Cal.is_leap y then 366 else 365.
Proof.
  unfold Cal.days_before_month, Cal.days_in_month.
  destruct (Cal.is_leap y); reflexivity.
Qed.

Lemma days_before_year_succ y :
  Cal.days_before_year (y + 1)
  = Cal.days_before_year y + (if Cal.is_leap y then 366 else 365).
Proof.
  unfold Cal.days_before_year, Cal.is_leap.
  replace (y + 1 - 1) with y by lia.
  destruct (y mod 4 =? 0) eqn:E4; destruct (y mod 100 =? 0) eqn:E100;
    destruct (y mod 400 =? 0) eqn:E400; simpl;
    rewrite ?Z.eqb_eq, ?Z.eqb_neq in *;
    Z.div_mod_to_equations; lia.
Qed.

(** The day after is one day later. *)
Lemma toordinal_next_day d :
  month_day_ok d -> Cal.toordinal (Cal.next_day d) = Cal.toordinal d + 1.
Proof.
  intros [Hm Hd]. unfold Cal.next_day, Cal.toordinal.
  destruct (day d <? Cal.days_in_month (year d) (month d)) eqn:E1; simpl.
  - lia.
  - apply Z.ltb_ge in E1.
    destruct (month d <? 12) eqn:E2; simpl.
    + apply Z.ltb_lt in E2. rewrite days_before_month_succ by lia. lia.
    + apply Z.ltb_ge in E2. assert (Hm12 : month d = 12) by lia.
      rewrite Hm12 in *. rewrite days_before_year_succ.
      pose proof (days_before_december (year d)) as Hdec.
      change (Cal.days_before_month (year d + 1) 1) with 0.
      change (Cal.days_in_month (year d) 12) with 31 in *.
      lia.
Qed.

Lemma next_day_month_day_ok d : month_day_ok d -> month_day_ok (Cal.next_day d).
Proof.
  intros [Hm Hd]. unfold Cal.next_day, month_day_ok.
  destruct (day d <? Cal.days_in_month (year d) (month d)) eqn:E1; simpl.
  - apply Z.ltb_lt in E1. lia.
  - destruct (month d <? 12) eqn:E2; simpl.
    + apply Z.ltb_lt in E2.
      pose proof (days_in_month_bounds (year d) (month d + 1)). lia.
    + pose proof (days_in_month_bounds (year d + 1) 1). lia.
Qed.

Lemma toordinal_add_days n d :
  month_day_ok d ->
  Cal.toordinal (Cal.add_days n d) = Cal.toordinal d + Z.of_nat n.
Proof.
  revert d. induction n as [|n IH]; intros d H.
  - simpl. lia.
  - cbn [Cal.add_days]. rewrite IH by (apply next_day_month_day_ok; exact H).
    rewrite toordinal_next_day by exact H. lia.
Qed.

(** The weekend policy: the congratulation date of a Saturday or a Sunday is
    the Monday that follows, and every other occurrence is congratulated on
    the day itself. *)
Lemma congratulation_date_policy occ :
  Cal.valid occ = true ->
  (Cal.weekday occ = 5 ->
   Cal.weekday (Book.congratulation_date occ) = 0
   /\ Cal.toordinal (Book.congratulation_date occ) = Cal.toordinal occ + 2)
  /\ (Cal.weekday occ = 6 ->
      Cal.weekday (Book.congratulation_date occ) = 0
      /\ Cal.toordinal (Book.congratulation_date occ) = Cal.toordinal occ + 1)
  /\ (Cal.weekday occ < 5 -> Book.congratulation_date occ = occ).
Proof.
  intros Hv. apply valid_month_day_ok in Hv.
  unfold Book.congratulation_date.
  pose proof (toordinal_add_days 2 occ Hv) as H2.
  pose proof (toordinal_add_days 1 occ Hv) as H1.
  assert (Hw : forall d, Cal.weekday d = (Cal.toordinal d + 6) mod 7)
    by reflexivity.
  split; [| split]; intros H.
  - rewrite H. change (5 =? 5) with true. cbv iota.
    split; [| lia].
    rewrite Hw in *. rewrite H2. clear H2 H1.
    revert H. generalize (Cal.toordinal occ). intros z H.
    Z.div_mod_to_equations. lia.
  - rewrite H. change (6 =? 5) with false. change (6 =? 6) with true.
    cbv iota.
    split; [| lia].
    rewrite Hw in *. rewrite H1. clear H2 H1.
    revert H. generalize (Cal.toordinal occ). intros z H.
    Z.div_mod_to_equations. lia.
  - destruct (Cal.weekday occ =? 5) eqn:E5; [apply Z.eqb_eq in E5; lia |].
    destruct (Cal.weekday occ =? 6) eqn:E6;
      [apply Z.eqb_eq in E6; lia | reflexivity].
Qed.

(** ** birthdays *)

Lemma due_entries_In today w rs e :
  In e (Book.due_entries today w rs) ->
  In (fst e) rs /\ Book.upcoming_entry today w (fst e) = Some e.
Proof.
  induction rs as [|r rs IH]; simpl; [tauto |].
  destruct (Book.upcoming_entry today w r) as [e0|] eqn:E.
  - intros [H | H].
    + subst e0.
      assert (Hr : fst e = r).
      { unfold Book.upcoming_entry in E.
        destruct (birthday r); [| discriminate].
        destruct (Book.occurrence today d); [| discriminate].
        destruct (Book.in_window today w d0); [| discriminate].
        injection E as E. subst e. reflexivity. }
      rewrite Hr. auto.
    + destruct (IH H). auto.
  - intros H. destruct (IH H). auto.
Qed.

Lemma due_entries_none today w rs :
  (forall r, In r rs -> Book.upcoming_entry today w r = None) ->
  Book.due_entries today w rs = [].
Proof.
  induction rs as [|r rs IH]; simpl; intros H; [reflexivity |].
  rewrite (H r) by auto. apply IH. auto.
Qed.

Lemma insert_sorted_In e x l :
  In x (Book.insert_sorted e l) <-> x = e \/ In x l.
Proof.
  induction l as [|y l IH]; simpl.
  - intuition congruence.
  - destruct (Book.entry_leb e y); simpl; rewrite ?IH; intuition congruence.
Qed.

Lemma sort_entries_In x l :
  In x (Book.sort_entries l) <-> In x l.
Proof.
  unfold Book.sort_entries. induction l as [|y l IH]; simpl; [tauto |].
  rewrite insert_sorted_In, IH. intuition congruence.
Qed.

Lemma insert_sorted_length e l :
  List.length (Book.insert_sorted e l) = S (List.length l).
Proof.
  induction l as [|y l IH]; simpl; [reflexivity |].
  destruct (Book.entry_leb e y); simpl; auto.
Qed.

Lemma sort_entries_length l :
  List.length (Book.sort_entries l) = List.length l.
Proof.
  unfold Book.sort_entries. induction l as [|y l IH]; simpl; [reflexivity |].
  rewrite insert_sorted_length, IH. reflexivity.
Qed.

Lemma birthdays_run today args book :
  birthdays today args book
  = (inr (match Book.get_upcoming_birthdays today book with
          | [] => "No birthdays in the next 7 days."
          | upcoming => PyStr.join PyStr.nl (map birthday_line upcoming)
          end), book).
Proof.
  unfold birthdays, input_error, birthdays_func.
  destruct (Book.get_upcoming_birthdays today book); reflexivity.
Qed.

(** C8: for every book and current date, when no stored contact has a
    birthday whose occurrence falls inside the window of seven days,
    [birthdays] replies "No birthdays in the next 7 days." and leaves the
    book as it is. *)
Theorem birthdays_none_signal today args book :
  (forall r b occ,
      In r (Book.values book) ->
      birthday r = Some b ->
      Book.occurrence today b = Some occ ->
      Book.in_window today 7 occ = false) ->
  birthdays today args book = (inr "No birthdays in the next 7 days.", book).
Proof.
  intros H. rewrite birthdays_run.
  unfold Book.get_upcoming_birthdays, Book.upcoming_birthdays.
  rewrite due_entries_none; [reflexivity |].
  intros r Hin. unfold Book.upcoming_entry.
  destruct (birthday r) as [b|] eqn:Hb; [| reflexivity].
  destruct (Book.occurrence today b) as [occ|] eqn:Ho; [| reflexivity].
  rewrite (H r b occ Hin Hb Ho). reflexivity.
Qed.

Lemma birthdays_none_signal_witness :
  birthdays (mkDate 2025 4 1) [] book_anna_born
  = (inr "No birthdays in the next 7 days.", book_anna_born).
Proof.
  apply (birthdays_none_signal (mkDate 2025 4 1) [] book_anna_born).
  intros r b occ [Hr | []] Hb Ho. subst r.
  injection Hb as Hb. subst b.
  injection Ho as Ho. subst occ.
  reflexivity.
Defined.

Lemma occurrence_valid today b occ :
  Book.occurrence today b = Some occ -> Cal.valid occ = true.
Proof.
  unfold Book.occurrence. intros H.
  match type of H with
  | (if Cal.valid ?d then _ else _) = _ => destruct (Cal.valid d) eqn:E
  end; [| discriminate H].
  injection H as H. subst occ. exact E.
Qed.

Lemma due_entries_complete today w rs r e :
  In r rs ->
  Book.upcoming_entry today w r = Some e ->
  In e (Book.due_entries today w rs).
Proof.
  intros Hin He. induction rs as [|x rs IH]; simpl in *; [tauto |].
  destruct Hin as [Hx | Hin].
  - subst x. rewrite He. simpl. auto.
  - destruct (Book.upcoming_entry today w x); simpl; auto.
Qed.

(** A due contact is in the result, with its congratulation date. *)
Lemma due_contact_listed today book r b occ :
  In r (Book.values book) ->
  birthday r = Some b ->
  Book.occurrence today b = Some occ ->
  Book.in_window today 7 occ = true ->
  In (r, Book.congratulation_date occ) (Book.upcoming_birthdays today 7 book).
Proof.
  intros Hin Hb Ho Hw. unfold Book.upcoming_birthdays.
  apply sort_entries_In. apply (due_entries_complete today 7 _ r); [exact Hin |].
  unfold Book.upcoming_entry. rewrite Hb, Ho, Hw. reflexivity.
Qed.



Example birthdays_on_friday :
  birthdays friday [] book_anna_born
  = (inr "Upcoming birthday within the next week: Anna - 17.03.2025, Phones: 1234567890",
     book_anna_born).
Proof. reflexivity. Qed.

(** ** parse_input *)

Lemma all_nonspace_snoc w c :
  PyStr.all_nonspace (w ++ String c EmptyString)
  = PyStr.all_nonspace w && negb (PyStr.isspace c).
Proof.
  induction w as [|x w IH]; simpl.
  - apply andb_true_r.
  - rewrite IH. apply andb_assoc.
Qed.

Lemma snoc_not_empty w c : w ++ String c EmptyString <> EmptyString.
Proof.
  destruct w; discriminate.
Qed.

(** Every token of [split] is a non-empty run without whitespace. *)
Lemma split_from_words s :
  forall cur,
    match cur with Some w => word_ok w | None => True end ->
    Forall word_ok (PyStr.split_from cur s).
Proof.
  induction s as [|c s IH]; intros cur Hcur; simpl.
  - destruct cur; auto.
  - destruct (PyStr.isspace c) eqn:E.
    + destruct cur; [constructor; auto |]; apply IH; exact I.
    + destruct cur as [w|]; apply IH.
      * destruct Hcur as [Hw _]. split; [| apply snoc_not_empty].
        rewrite all_nonspace_snoc, Hw, E. reflexivity.
      * split; [simpl; rewrite E; reflexivity | discriminate].
Qed.

Lemma split_words s : Forall word_ok (PyStr.split s).
Proof.
  apply split_from_words. exact I.
Qed.

Lemma split_from_some_nonempty s w : PyStr.split_from (Some w) s <> [].
Proof.
  revert w. induction s as [|c s IH]; intros w; simpl.
  - discriminate.
  - destruct (PyStr.isspace c); [discriminate | apply IH].
Qed.

(** A line has a token exactly when it has a character that is not
    whitespace. *)
Lemma split_nonempty s :
  PyStr.has_nonspace s = true <-> PyStr.split s <> [].
Proof.
  unfold PyStr.split. induction s as [|c s IH]; simpl.
  - split; [discriminate | congruence].
  - destruct (PyStr.isspace c); simpl.
    + exact IH.
    + split; [intros _; apply split_from_some_nonempty | reflexivity].
Qed.

Lemma lstrip_word w : PyStr.all_nonspace w = true -> PyStr.lstrip w = w.
Proof.
  destruct w as [|c w]; simpl; [reflexivity |].
  destruct (PyStr.isspace c); [discriminate | reflexivity].
Qed.

Lemma rstrip_word w : PyStr.all_nonspace w = true -> PyStr.rstrip w = w.
Proof.
  induction w as [|c w IH]; simpl; [reflexivity |].
  intros H. apply andb_true_iff in H. destruct H as [Hc Hw].
  rewrite (IH Hw). destruct w; [| reflexivity].
  destruct (PyStr.isspace c); [discriminate | reflexivity].
Qed.

Lemma strip_word w : PyStr.all_nonspace w = true -> PyStr.strip w = w.
Proof.
  intros H. unfold PyStr.strip. rewrite (lstrip_word w H). apply rstrip_word, H.
Qed.

Lemma lower_char_idempotent c :
  PyStr.lower_char (PyStr.lower_char c) = PyStr.lower_char c.
Proof.
  destruct c as [[] [] [] [] [] [] [] []]; reflexivity.
Qed.

Lemma lower_idempotent s : PyStr.lower (PyStr.lower s) = PyStr.lower s.
Proof.
  induction s as [|c s IH]; simpl; [reflexivity |].
  rewrite lower_char_idempotent, IH. reflexivity.
Qed.

Lemma parse_input_of_tokens line action args :
  PyStr.split line = action :: args ->
  parse_input line = inr (PyStr.lower action, args).
Proof.
  intros H. unfold parse_input. rewrite H.
  pose proof (split_words line) as Hw. rewrite H in Hw.
  inversion Hw as [|? ? [Hok _] _]; subst.
  rewrite strip_word by exact Hok. reflexivity.
Qed.

(** C9, as stated, fails: a line of one blank is not empty and has no token;
    [parse_input] raises on it and returns nothing. *)
Lemma parse_input_blank_line :
  " " <> EmptyString /\
  parse_input " "
  = inl (ValueError "not enough values to unpack (expected at least 1, got 0)").
Proof.
  split; [discriminate | reflexivity].
Qed.

(** C9, amended: for every input line that holds a character other than
    whitespace, [parse_input] returns the first whitespace-separated token in
    lower case as the command and all the remaining tokens, unchanged and in
    order, as the arguments; so two lines that differ only in the case of the
    command word parse alike. *)
Theorem parse_input_tokens line :
  PyStr.has_nonspace line = true ->
  exists action args,
    PyStr.split line = action :: args
    /\ parse_input line = inr (PyStr.lower action, args)
    /\ forall line' action',
        PyStr.split line' = action' :: args ->
        PyStr.lower action' = PyStr.lower action ->
        parse_input line' = parse_input line.
Proof.
  intros H. apply split_nonempty in H.
  destruct (PyStr.split line) as [|action args] eqn:E; [congruence |].
  exists action, args. split; [reflexivity |].
  split; [apply parse_input_of_tokens; exact E |].
  intros line' action' E' Hl.
  rewrite (parse_input_of_tokens _ _ _ E'), (parse_input_of_tokens _ _ _ E), Hl.
  reflexivity.
Qed.

Lemma parse_input_tokens_witness :
  exists action args,
    PyStr.split "ADD Anna 1234567890" = action :: args
    /\ parse_input "ADD Anna 1234567890" = inr (PyStr.lower action, args)
    /\ forall line' action',
        PyStr.split line' = action' :: args ->
        PyStr.lower action' = PyStr.lower action ->
        parse_input line' = parse_input "ADD Anna 1234567890".
Proof.
  apply (parse_input_tokens "ADD Anna 1234567890"). reflexivity.
Defined.

Example parse_input_add :
  parse_input "ADD  Anna 1234567890" = inr ("add", ["Anna"; "1234567890"])
  /\ parse_input "add Anna 1234567890" = parse_input "ADD  Anna 1234567890".
Proof. split; reflexivity. Qed.

(** ** The command loop *)

Lemma input_error_returns func book :
  exists response book', input_error func book = (inr response, book').
Proof.
  unfold input_error. destruct (func book) as [[e | response] book'].
  - destruct e; simpl; eauto.
  - eauto.
Qed.

(** Whatever the command word and the arguments, [handle_action] returns a
    response: what a handler raises is turned into text by [input_error]. *)
Lemma handle_action_returns today action args book :
  exists response book',
    handle_action today action args book = (inr response, book').
Proof.
  unfold handle_action, add_contact, change_contact, show_phone, show_all,
    add_birthday, show_birthday, birthdays.
  repeat match goal with
         | |- context [if ?b then _ else _] => destruct b
         end;
    try apply input_error_returns; unfold ret; eauto.
Qed.

(** A line with a token is always answered. *)
Lemma process_line_returns today line book :
  PyStr.has_nonspace line = true ->
  exists response book',
    process_line today line book = (inr response, book').
Proof.
  intros H. apply split_nonempty in H.
  destruct (PyStr.split line) as [|action args] eqn:E; [congruence |].
  unfold process_line, bind, lift.
  rewrite (parse_input_of_tokens _ _ _ E). simpl.
  apply handle_action_returns.
Qed.

(** C3 fails on the empty line: the unpacking in [parse_input] raises
    [ValueError] outside every handler, nothing catches it, and the loop of
    [main] ends with that exception, whatever the book and the lines that
    follow. *)
Theorem process_line_empty_raises today book rest :
  process_line today EmptyString book
  = (inl (ValueError
            "not enough values to unpack (expected at least 1, got 0)"),
     book)
  /\ main_loop today (EmptyString :: rest) book
     = ([],
        Crashed (ValueError
                   "not enough values to unpack (expected at least 1, got 0)"),
        book).
Proof.
  split; reflexivity.
Qed.

(** A line without a token is never answered: the unpacking raises. *)
Lemma process_line_blank_raises today line book :
  PyStr.has_nonspace line = false ->
  process_line today line book
  = (inl (ValueError
            "not enough values to unpack (expected at least 1, got 0)"),
     book).
Proof.
  intros H. unfold process_line, bind, lift, parse_input.
  destruct (PyStr.split line) as [|action args] eqn:E; [reflexivity |].
  assert (Hs : PyStr.has_nonspace line = true)
    by (apply split_nonempty; congruence).
  congruence.
Qed.

(** ** What a command can do to the book *)

Ltac break_hyp H :=
  repeat (match type of H with
          | context [match ?x with _ => _ end] =>
              lazymatch x with
              | context [match _ with _ => _ end] => fail
              | _ => destruct x eqn:?
              end
          end; cbv beta iota zeta in H).

Ltac run_handler H :=
  cbv beta zeta delta
    [add_contact change_contact show_phone show_all add_birthday
     show_birthday birthdays input_error add_contact_func change_contact_func
     show_phone_func show_all_func add_birthday_func show_birthday_func
     birthdays_func bind find lift add_record on_record ret raise
     Book.add_record Rec.add_phone Rec.edit_phone Rec.remove_phone
     Rec.add_birthday Rec.init truthy is_input_error str_exn] in H;
  break_hyp H; simpl in *;
  try discriminate;
  repeat match goal with
         | E : (_, _) = (_, _) |- _ => inversion E; subst; clear E
         | E : inr _ = inr _ |- _ => inversion E; subst; clear E
         | E : inl _ = inl _ |- _ => inversion E; subst; clear E
         | E : Some _ = Some _ |- _ => inversion E; subst; clear E
         | E : _ :: _ = _ :: _ |- _ => inversion E; subst; clear E
         end.

Ltac close_step :=
  solve [ apply step_same
        | eapply step_mutate; [eassumption | reflexivity]
        | eapply step_insert; [eassumption | reflexivity] ].

Lemma add_contact_step args book res book' :
  add_contact args book = (res, book') -> book_step book book'.
Proof.
  intros H. run_handler H; close_step.
Qed.

Lemma change_contact_step args book res book' :
  change_contact args book = (res, book') -> book_step book book'.
Proof.
  intros H. run_handler H; close_step.
Qed.

Lemma add_birthday_step args book res book' :
  add_birthday args book = (res, book') -> book_step book book'.
Proof.
  intros H. run_handler H; close_step.
Qed.

Lemma show_phone_same args book res book' :
  show_phone args book = (res, book') -> book' = book.
Proof.
  intros H. run_handler H; reflexivity.
Qed.

Lemma show_birthday_same args book res book' :
  show_birthday args book = (res, book') -> book' = book.
Proof.
  intros H. run_handler H; reflexivity.
Qed.

Lemma show_all_same book res book' :
  show_all book = (res, book') -> book' = book.
Proof.
  intros H. run_handler H; reflexivity.
Qed.

Lemma birthdays_same today args book res book' :
  birthdays today args book = (res, book') -> book' = book.
Proof.
  intros H. rewrite birthdays_run in H. injection H as _ H. auto.
Qed.

(** X4: The four query commands never change the book, whatever their arguments
    and whatever they reply. *)
Theorem queries_leave_book today args book :
  snd (show_phone args book) = book
  /\ snd (show_all book) = book
  /\ snd (show_birthday args book) = book
  /\ snd (birthdays today args book) = book.
Proof.
  repeat split.
  - destruct (show_phone args book) as [res book'] eqn:E.
    exact (show_phone_same _ _ _ _ E).
  - destruct (show_all book) as [res book'] eqn:E.
    exact (show_all_same _ _ _ E).
  - destruct (show_birthday args book) as [res book'] eqn:E.
    exact (show_birthday_same _ _ _ _ E).
  - destruct (birthdays today args book) as [res book'] eqn:E.
    exact (birthdays_same _ _ _ _ _ E).
Qed.

Lemma handle_action_step today action args book res book' :
  handle_action today action args book = (res, book') -> book_step book book'.
Proof.
  unfold handle_action. intros H.
  repeat match type of H with
         | context [if ?b then _ else _] => destruct b
         end;
    first [ exact (add_contact_step _ _ _ _ H)
          | exact (change_contact_step _ _ _ _ H)
          | exact (add_birthday_step _ _ _ _ H)
          | rewrite (show_phone_same _ _ _ _ H); apply step_same
          | rewrite (show_birthday_same _ _ _ _ H); apply step_same
          | rewrite (show_all_same _ _ _ H); apply step_same
          | rewrite (birthdays_same _ _ _ _ _ H); apply step_same
          | unfold ret in H; injection H as _ H; subst; apply step_same ].
Qed.

Lemma find_none_not_key nm book :
  Book.find nm book = None <-> ~ In nm (map fst book).
Proof.
  induction book as [|[k r] rest IH]; simpl.
  - tauto.
  - destruct (String.eqb_spec k nm) as [E | E].
    + split; [discriminate | tauto].
    + rewrite IH. tauto.
Qed.

Lemma find_some_entry nm book r :
  Book.find nm book = Some r -> In (nm, r) book.
Proof.
  induction book as [|[k r0] rest IH]; simpl; [discriminate |].
  destruct (String.eqb_spec k nm) as [E | E].
  - intros H. injection H as H. subst. auto.
  - auto.
Qed.

Lemma store_Forall (P : string * ContactRecord -> Prop) key r book :
  Forall P book -> P (key, r) -> Forall P (Book.store key r book).
Proof.
  intros Hall Hp. induction Hall as [|[k r0] rest Hk Hrest IH]; simpl.
  - constructor.
  - destruct (String.eqb_spec k key) as [E | E].
    + subst k. constructor; assumption.
    + constructor; assumption.
Qed.

Lemma NoDup_snoc (l : list string) a :
  NoDup l -> ~ In a l -> NoDup (l ++ [a]).
Proof.
  intros Hnd Hni. induction Hnd as [|x l Hx Hl IH]; simpl.
  - constructor; [tauto | constructor].
  - constructor.
    + rewrite in_app_iff. simpl in *. intuition congruence.
    + apply IH. simpl in Hni. tauto.
Qed.

Lemma book_step_keys book book' :
  book_step book book' ->
  map fst book' = map fst book
  \/ exists nm,
      ~ In nm (map fst book) /\ map fst book' = (map fst book ++ [nm])%list.
Proof.
  intros [| nm r r' Hf Hn | nm r' Hf Hn].
  - left. reflexivity.
  - left. apply store_keys.
  - right. exists nm. split; [apply find_none_not_key; exact Hf |].
    rewrite map_app. reflexivity.
Qed.

Lemma book_step_ok book book' :
  book_step book book' -> book_ok book -> book_ok book'.
Proof.
  intros Hs [Hnd Hall]. destruct Hs as [| nm r r' Hf Hn | nm r' Hf Hn].
  - split; assumption.
  - split.
    + rewrite store_keys. exact Hnd.
    + apply store_Forall; [exact Hall |]. simpl.
      rewrite Hn. apply find_some_entry in Hf.
      rewrite Forall_forall in Hall. exact (Hall _ Hf).
  - split.
    + rewrite map_app. simpl. apply NoDup_snoc; [exact Hnd |].
      apply find_none_not_key. exact Hf.
    + apply Forall_app. split; [exact Hall |].
      constructor; [exact Hn | constructor].
Qed.

(** X5: No command deletes, renames or reorders a contact: after any command the
    keys of the book are the keys before it, in the same order, with at most
    one new key added last. *)
Theorem handle_action_keeps_contacts today action args book :
  map fst (snd (handle_action today action args book)) = map fst book
  \/ exists nm,
      ~ In nm (map fst book)
      /\ map fst (snd (handle_action today action args book))
         = (map fst book ++ [nm])%list.
Proof.
  destruct (handle_action today action args book) as [res book'] eqn:E.
  apply book_step_keys. exact (handle_action_step _ _ _ _ _ _ E).
Qed.

(** X6: Every command keeps the book well-formed: when the keys are distinct and
    every record is held under its own name before a command, they are so
    after it. *)
Theorem handle_action_keeps_book_ok today action args book :
  book_ok book -> book_ok (snd (handle_action today action args book)).
Proof.
  intros Hok.
  destruct (handle_action today action args book) as [res book'] eqn:E.
  exact (book_step_ok _ _ (handle_action_step _ _ _ _ _ _ E) Hok).
Qed.

Lemma handle_action_keeps_book_ok_witness :
  book_ok (snd (handle_action friday "add" ["Bob"; "0987654321"] book_anna)).
Proof.
  apply (handle_action_keeps_book_ok friday "add" ["Bob"; "0987654321"]
           book_anna).
  split.
  - simpl. constructor; [simpl; tauto | constructor].
  - constructor; [reflexivity | constructor].
Defined.

Ltac close_frame :=
  first [ reflexivity
        | exfalso;
          match goal with
          | Hn : ~ _ |- _ => apply Hn; simpl; tauto
          end ].

Lemma add_contact_frame args book reply book' :
  add_contact args book = (inr reply, book') ->
  ~ In reply mutating_replies -> book' = book.
Proof.
  intros H Hn. run_handler H; close_frame.
Qed.

Lemma change_contact_frame args book reply book' :
  change_contact args book = (inr reply, book') ->
  ~ In reply mutating_replies -> book' = book.
Proof.
  intros H Hn. run_handler H; close_frame.
Qed.

Lemma add_birthday_frame args book reply book' :
  add_birthday args book = (inr reply, book') ->
  ~ In reply mutating_replies -> book' = book.
Proof.
  intros H Hn. run_handler H; close_frame.
Qed.

(** X3: A command changes the book only when it says so: whenever the reply is
    none of "Contact added.", "Contact updated.", "Phone number updated.",
    "Phone number removed." and "Birthday added.", the book after the command
    is the book before it.  In particular a reply that is the text of a
    failure comes with an unchanged book. *)
Theorem handle_action_frame today action args book reply book' :
  handle_action today action args book = (inr reply, book') ->
  ~ In reply mutating_replies ->
  book' = book.
Proof.
  unfold handle_action. intros H Hn.
  repeat match type of H with
         | context [if ?b then _ else _] => destruct b
         end;
    first [ exact (add_contact_frame _ _ _ _ H Hn)
          | exact (change_contact_frame _ _ _ _ H Hn)
          | exact (add_birthday_frame _ _ _ _ H Hn)
          | exact (show_phone_same _ _ _ _ H)
          | exact (show_birthday_same _ _ _ _ H)
          | exact (show_all_same _ _ _ H)
          | exact (birthdays_same _ _ _ _ _ H)
          | unfold ret in H; injection H as _ H; subst; reflexivity ].
Qed.

Lemma handle_action_frame_witness :
  snd (handle_action friday "add" ["Bob"; "12345"; "15.03.1990"] book_anna)
  = book_anna.
Proof.
  apply (handle_action_frame friday "add" ["Bob"; "12345"; "15.03.1990"]
           book_anna "Invalid phone number format.").
  - reflexivity.
  - simpl. intros H.
    repeat (destruct H as [H | H]; [discriminate H |]). exact H.
Defined.

(** X2: A command word that [handle_action] does not know is answered by the
    list of the commands, and the book is left as it is. *)
Theorem handle_action_unknown today action args book :
  ~ In action command_words ->
  handle_action today action args book = (inr invalid_command, book).
Proof.
  intros H. unfold handle_action.
  repeat match goal with
         | |- context [String.eqb action ?w] =>
             destruct (String.eqb_spec action w) as [E | E];
             [exfalso; apply H; rewrite E; simpl; tauto | clear E]
         end.
  reflexivity.
Qed.

Lemma handle_action_unknown_witness :
  handle_action friday "delete" ["Anna"] book_anna
  = (inr invalid_command, book_anna).
Proof.
  apply (handle_action_unknown friday "delete" ["Anna"] book_anna).
  simpl. intros H.
  repeat (destruct H as [H | H]; [discriminate H |]). exact H.
Defined.

(** X1: A handler called with the wrong number of arguments replies with its
    usage text and leaves the book as it is: [add_contact] with fewer than
    two, [change_contact] with other than two or three, [add_birthday] with
    other than two, [show_phone] and [show_birthday] with other than one. *)
Theorem wrong_argument_count args book :
  ((List.length args < 2)%nat ->
   add_contact args book
   = (inr "Error: Give me name and phone please.", book))
  /\ (List.length args <> 2%nat -> List.length args <> 3%nat ->
      change_contact args book
      = (inr "Error: Give me name, old phone and new phone please or name and phone to remove.",
         book))
  /\ (List.length args <> 2%nat ->
      add_birthday args book
      = (inr "Error: Give me name and birthday please.", book))
  /\ (List.length args <> 1%nat ->
      show_phone args book = (inr "Error: Give me name, please.", book)
      /\ show_birthday args book = (inr "Error: Give me name, please.", book)).
Proof.
  repeat split; intros;
    destruct args as [|a [|b [|c [|d rest]]]]; simpl in *;
    first [reflexivity | lia | congruence].
Qed.

Lemma wrong_argument_count_witness :
  add_contact ["Anna"] book_anna
  = (inr "Error: Give me name and phone please.", book_anna)
  /\ show_phone [] book_anna
     = (inr "Error: Give me name, please.", book_anna).
Proof.
  split.
  - apply (proj1 (wrong_argument_count ["Anna"] book_anna)). simpl. lia.
  - apply (proj2 (proj2 (proj2 (wrong_argument_count [] book_anna)))).
    simpl. lia.
Defined.

(** X8: When the name is already in the book, [add_contact] ignores every
    argument after the phone: a birthday text given there is neither stored
    nor checked. *)
Theorem add_contact_existing_ignores_birthday book nm phone optional_args :
  Book.find nm book <> None ->
  add_contact (nm :: phone :: optional_args) book
  = add_contact [nm; phone] book.
Proof.
  intros H.
  unfold add_contact, input_error, add_contact_func, bind, find.
  destruct (Book.find nm book) as [r|]; [reflexivity | congruence].
Qed.

Lemma add_contact_existing_ignores_birthday_witness :
  add_contact ["Anna"; "0987654321"; "not-a-date"] book_anna
  = add_contact ["Anna"; "0987654321"] book_anna.
Proof.
  apply (add_contact_existing_ignores_birthday book_anna "Anna" "0987654321"
           ["not-a-date"]).
  discriminate.
Defined.

(** X11: With two arguments, the name of a stored contact and a phone that is not
    on the contact, [change_contact] replies "Phone number not found in the
    contact." and leaves the book as it is. *)
Theorem change_contact_remove_missing book nm phone r :
  Book.find nm book = Some r ->
  ~ In phone (map value (phones r)) ->
  change_contact [nm; phone] book
  = (inr "Phone number not found in the contact.", book).
Proof.
  intros Hf Hni.
  unfold change_contact, input_error, change_contact_func, bind, find.
  rewrite Hf, (find_phone_absent phone r Hni). reflexivity.
Qed.

Lemma change_contact_remove_missing_witness :
  change_contact ["Anna"; "0987654321"] book_anna
  = (inr "Phone number not found in the contact.", book_anna).
Proof.
  apply (change_contact_remove_missing book_anna "Anna" "0987654321" anna).
  - reflexivity.
  - simpl. intros [H | []]. discriminate H.
Defined.

(** ** Adding and then asking *)

Lemma show_phone_stored book nm r :
  Book.find nm book = Some r ->
  show_phone [nm] book
  = (inr (nm ++ ": " ++ PyStr.join ", " (map Rec.str_phone (phones r))), book).
Proof.
  intros Hf. unfold show_phone, input_error, show_phone_func, bind, find.
  rewrite Hf. reflexivity.
Qed.

Ltac no_such_reply H :=
  exfalso; simpl in H;
  repeat (destruct H as [H | H]; [discriminate H |]); exact H.

(** X9: Whenever [add_contact] answers with anything but the text of a failure,
    the name is in the book afterwards, the phone is on that contact, and
    [show_phone] for the name lists the contact's phones. *)
Theorem add_contact_then_show_phone book nm phone optional_args reply book' :
  add_contact (nm :: phone :: optional_args) book = (inr reply, book') ->
  In reply upsert_replies ->
  exists r',
    Book.find nm book' = Some r'
    /\ In phone (map value (phones r'))
    /\ show_phone [nm] book'
       = (inr (nm ++ ": " ++ PyStr.join ", " (map Rec.str_phone (phones r'))),
          book').
Proof.
  intros H Hin.
  assert (Hgoal : exists r',
             Book.find nm book' = Some r' /\ In phone (map value (phones r'))).
  { run_handler H; try (no_such_reply Hin).
    - eexists. split; [eassumption |]. apply existsb_phone_In. assumption.
    - eexists. split; [apply find_store_same; congruence |].
      simpl. rewrite map_app, in_app_iff. simpl. auto.
    - eexists. split; [apply find_app_new; assumption |]. simpl. auto.
    - eexists. split; [apply find_app_new; assumption |]. simpl. auto.
    - eexists. split; [apply find_app_new; assumption |]. simpl. auto. }
  destruct Hgoal as [r' [Hf Hp]]. exists r'.
  split; [exact Hf | split; [exact Hp | apply show_phone_stored; exact Hf]].
Qed.

Lemma add_contact_then_show_phone_witness :
  exists r',
    Book.find "Bob"
      [("Anna", anna); ("Bob", mkRecord "Bob" [mkPhone "0987654321"] None)]
    = Some r'
    /\ In "0987654321" (map value (phones r'))
    /\ show_phone ["Bob"]
         [("Anna", anna); ("Bob", mkRecord "Bob" [mkPhone "0987654321"] None)]
       = (inr ("Bob" ++ ": "
               ++ PyStr.join ", " (map Rec.str_phone (phones r'))),
          [("Anna", anna);
           ("Bob", mkRecord "Bob" [mkPhone "0987654321"] None)]).
Proof.
  apply (add_contact_then_show_phone book_anna "Bob" "0987654321" []
           "Contact added.").
  - reflexivity.
  - simpl. left. reflexivity.
Defined.

(** X10: [show_phone] with one argument: for a stored name the reply is the name
    and the contact's phones in their order, joined by commas; the reply
    "Contact not found." is given exactly when the name is not in the book. *)
Theorem show_phone_cases book nm :
  (forall r,
      Book.find nm book = Some r ->
      show_phone [nm] book
      = (inr (nm ++ ": " ++ PyStr.join ", " (map value (phones r))), book))
  /\ (fst (show_phone [nm] book) = inr "Contact not found."
      <-> Book.find nm book = None).
Proof.
  split.
  - intros r Hf. rewrite (show_phone_stored book nm r Hf). reflexivity.
  - unfold show_phone, input_error, show_phone_func, bind, find.
    destruct (Book.find nm book) as [r|]; simpl.
    + split; [| discriminate]. intros H. injection H as H.
      exfalso. exact (rendered_birthday_not_signal _ _ H).
    + split; reflexivity.
Qed.

Lemma show_phone_cases_witness :
  show_phone ["Anna"] book_anna = (inr "Anna: 1234567890", book_anna).
Proof.
  apply (proj1 (show_phone_cases book_anna "Anna") anna). reflexivity.
Defined.

(** X12: After [add_birthday] has answered "Birthday added.", the text was a
    well-formed date and [show_birthday] for that name shows this date. *)
Theorem add_birthday_then_show_birthday book nm text book' :
  add_birthday [nm; text] book = (inr "Birthday added.", book') ->
  exists d,
    Cal.parse text = Some d
    /\ show_birthday [nm] book' = (inr (nm ++ ": " ++ Cal.str_date d), book').
Proof.
  intros H. run_handler H.
  eexists. split; [eassumption |].
  unfold show_birthday, input_error, show_birthday_func, bind, find.
  rewrite find_store_same by congruence. reflexivity.
Qed.

Lemma add_birthday_then_show_birthday_witness :
  exists d,
    Cal.parse "15.03.1990" = Some d
    /\ show_birthday ["Anna"] book_anna_born
       = (inr ("Anna" ++ ": " ++ Cal.str_date d), book_anna_born).
Proof.
  apply (add_birthday_then_show_birthday book_anna "Anna" "15.03.1990"
           book_anna_born).
  reflexivity.
Defined.

(** X7: [add_contact] never makes a contact list a phone twice: when no contact
    of the book has a repeated phone before the call, none has after it. *)
Theorem add_contact_keeps_phones_nodup args book :
  phones_nodup book -> phones_nodup (snd (add_contact args book)).
Proof.
  unfold phones_nodup. intros Hall.
  destruct (add_contact args book) as [res book'] eqn:H. simpl.
  assert (Hone : forall v, NoDup (map value [mkPhone v])).
  { intros v. simpl. constructor; [simpl; tauto | constructor]. }
  run_handler H; try assumption;
    try (apply Forall_app; split; [assumption |];
         constructor; [apply Hone | constructor]).
  apply store_Forall; [assumption |]. simpl.
  rewrite map_app. simpl. apply NoDup_snoc.
  - match goal with
    | Hf : Book.find _ _ = Some _ |- _ =>
        apply find_some_entry in Hf; rewrite Forall_forall in Hall;
        exact (Hall _ Hf)
    end.
  - intros Hin. apply existsb_phone_In in Hin. congruence.
Qed.

Lemma add_contact_keeps_phones_nodup_witness :
  phones_nodup (snd (add_contact ["Anna"; "0987654321"] book_anna)).
Proof.
  apply (add_contact_keeps_phones_nodup ["Anna"; "0987654321"] book_anna).
  constructor; [| constructor].
  simpl. constructor; [simpl; tauto | constructor].
Defined.

(** ** What parse_input hands to the handlers *)

Lemma isspace_lower_char c :
  PyStr.isspace (PyStr.lower_char c) = PyStr.isspace c.
Proof.
  destruct c as [[] [] [] [] [] [] [] []]; reflexivity.
Qed.

Lemma all_nonspace_lower s :
  PyStr.all_nonspace (PyStr.lower s) = PyStr.all_nonspace s.
Proof.
  induction s as [|c s IH]; simpl; [reflexivity |].
  rewrite isspace_lower_char, IH. reflexivity.
Qed.

(** X13: Whatever [parse_input] returns, the command is a non-empty text without
    whitespace that [lower] leaves as it is, and every argument is a
    non-empty text without whitespace: no handler is ever given an empty or
    blank name from a typed line. *)
Theorem parse_input_words line action args :
  parse_input line = inr (action, args) ->
  word_ok action /\ PyStr.lower action = action /\ Forall word_ok args.
Proof.
  unfold parse_input. intros H.
  pose proof (split_words line) as Hw.
  destruct (PyStr.split line) as [|tok rest]; [discriminate |].
  injection H as Ha Hr. subst.
  inversion Hw as [|? ? [Hok Hne] Hrest]; subst.
  rewrite strip_word by exact Hok.
  split; [| split].
  - split; [rewrite all_nonspace_lower; exact Hok |].
    destruct tok; [congruence | discriminate].
  - apply lower_idempotent.
  - exact Hrest.
Qed.

Lemma parse_input_words_witness :
  word_ok "add" /\ PyStr.lower "add" = "add"
  /\ Forall word_ok ["Anna"; "1234567890"].
Proof.
  apply (parse_input_words "  ADD Anna   1234567890 " "add"
           ["Anna"; "1234567890"]).
  reflexivity.
Defined.

(** ** The session *)

(** X14: A typed line is answered exactly when it holds a character other than
    whitespace; on every other line the turn ends with [ValueError] and the
    book as it was. *)
Theorem process_line_answered today line book :
  (PyStr.has_nonspace line = true ->
   exists response book',
     process_line today line book = (inr response, book'))
  /\ (PyStr.has_nonspace line = false ->
      process_line today line book
      = (inl (ValueError
                "not enough values to unpack (expected at least 1, got 0)"),
         book)).
Proof.
  split.
  - apply process_line_returns.
  - apply process_line_blank_raises.
Qed.

Lemma process_line_answered_witness :
  (exists response book',
      process_line friday "phone Anna" book_anna = (inr response, book'))
  /\ process_line friday "   " book_anna
     = (inl (ValueError
               "not enough values to unpack (expected at least 1, got 0)"),
        book_anna).
Proof.
  split.
  - apply (proj1 (process_line_answered friday "phone Anna" book_anna)).
    reflexivity.
  - apply (proj2 (process_line_answered friday "   " book_anna)).
    reflexivity.
Defined.

Lemma handle_action_exit today action args book :
  existsb (String.eqb action) ["close"; "exit"; "bye"] = true ->
  handle_action today action args book = (inr "Good bye!", book).
Proof.
  simpl. intros H.
  destruct (String.eqb_spec action "close") as [E | _]; [subst; reflexivity |].
  destruct (String.eqb_spec action "exit") as [E | _]; [subst; reflexivity |].
  destruct (String.eqb_spec action "bye") as [E | _]; [subst; reflexivity |].
  discriminate H.
Qed.

(** X15: A line whose command is [close], [exit] or [bye], in any case of letters
    and with any arguments, ends the session: "Good bye!" is printed, the
    book is left as it is, and no later line is read. *)
Theorem main_loop_exit today line rest book action args :
  parse_input line = inr (action, args) ->
  In action ["close"; "exit"; "bye"] ->
  main_loop today (line :: rest) book = (["Good bye!"], Exited, book).
Proof.
  intros Hp Hin.
  assert (He : existsb (String.eqb action) ["close"; "exit"; "bye"] = true).
  { apply existsb_exists. exists action. split; [exact Hin |].
    apply String.eqb_refl. }
  cbn [main_loop]. rewrite Hp, (handle_action_exit today action args book He).
  rewrite He. reflexivity.
Qed.

Lemma main_loop_exit_witness :
  main_loop friday ["EXIT now"; "add Bob 0987654321"] book_anna
  = (["Good bye!"], Exited, book_anna).
Proof.
  apply (main_loop_exit friday "EXIT now" ["add Bob 0987654321"] book_anna
           "exit" ["now"]).
  - reflexivity.
  - simpl. right. left. reflexivity.
Defined.

Lemma main_loop_cons today line rest book :
  main_loop today (line :: rest) book
  = match process_line today line book with
    | (inl e, book') => ([], Crashed e, book')
    | (inr response, book') =>
        match parse_input line with
        | inr (action, _) =>
            if existsb (String.eqb action) ["close"; "exit"; "bye"]
            then ([response], Exited, book')
            else
              let '(printed, o, book'') := main_loop today rest book' in
              (response :: printed, o, book'')
        | inl e => ([], Crashed e, book')
        end
    end.
Proof.
  cbn [main_loop]. unfold process_line, bind, lift.
  destruct (parse_input line) as [e | [action args]]; [reflexivity |].
  simpl. destruct (handle_action today action args book) as [[e | r] b];
    reflexivity.
Qed.



(** X17: Lines typed one after the other: when the session on the first lines is
    still waiting for input, the session on all the lines goes on with the
    later lines from the book the first lines left, and prints the responses
    of both in order; when the first lines ended the session, by the exit
    command or by an exception, the later lines change nothing. *)
Theorem main_loop_app today l1 l2 :
  forall book printed1 o1 book1,
    main_loop today l1 book = (printed1, o1, book1) ->
    main_loop today (l1 ++ l2) book
    = match o1 with
      | Waiting =>
          let '(printed2, o2, book2) := main_loop today l2 book1 in
          ((printed1 ++ printed2)%list, o2, book2)
      | _ => (printed1, o1, book1)
      end.
Proof.
  induction l1 as [|line rest IH]; intros book printed1 o1 book1 H.
  - simpl in H. injection H as Hp Ho Hb. subst.
    simpl. destruct (main_loop today l2 book1) as [[p2 o2] b2]. reflexivity.
  - cbn [main_loop app] in *.
    destruct (parse_input line) as [e | [action args]].
    + injection H as Hp Ho Hb. subst. reflexivity.
    + destruct (handle_action today action args book) as [[e | r] b].
      * injection H as Hp Ho Hb. subst. reflexivity.
      * destruct (existsb (String.eqb action) ["close"; "exit"; "bye"]).
        -- injection H as Hp Ho Hb. subst. reflexivity.
        -- destruct (main_loop today rest b) as [[p0 o0] b0] eqn:Hrest.
           injection H as Hp Ho Hb. subst.
           rewrite (IH _ _ _ _ Hrest).
           destruct o1; try reflexivity.
           destruct (main_loop today l2 book1) as [[p2 o2] b2]. reflexivity.
Qed.

Lemma main_loop_app_witness :
  main_loop friday (["add Bob 0987654321"] ++ ["phone Bob"]) book_anna
  = (let '(printed2, o2, book2) :=
       main_loop friday ["phone Bob"]
         [("Anna", anna);
          ("Bob", mkRecord "Bob" [mkPhone "0987654321"] None)] in
     ((["Contact added."] ++ printed2)%list, o2, book2)).
Proof.
  apply (main_loop_app friday ["add Bob 0987654321"] ["phone Bob"] book_anna
           ["Contact added."] Waiting).
  reflexivity.
Defined.

(** X18: The session prints at most one response per line read; when it is still
    waiting for input every line was answered by exactly one response; and
    when it ended by the exit command the last response printed is
    "Good bye!". *)
Theorem main_loop_responses today inputs :
  forall book printed o book',
    main_loop today inputs book = (printed, o, book') ->
    (List.length printed <= List.length inputs)%nat
    /\ (o = Waiting -> List.length printed = List.length inputs)
    /\ (o = Exited ->
        printed <> [] /\ last printed EmptyString = "Good bye!").
Proof.
  induction inputs as [|line rest IH]; intros book printed o book' H.
  - simpl in H. injection H as Hp Ho Hb. subst.
    split; [simpl; lia | split; [reflexivity | discriminate]].
  - cbn [main_loop] in H.
    destruct (parse_input line) as [e | [action args]].
    + injection H as Hp Ho Hb. subst.
      split; [simpl; lia | split; discriminate].
    + destruct (handle_action today action args book) as [[e | r] b] eqn:Hh.
      * injection H as Hp Ho Hb. subst.
        split; [simpl; lia | split; discriminate].
      * destruct (existsb (String.eqb action) ["close"; "exit"; "bye"])
          eqn:He.
        -- rewrite (handle_action_exit today action args book He) in Hh.
           injection Hh as Hr Hb'. injection H as Hp Ho Hb. subst.
           split; [simpl; lia |].
           split; [discriminate |].
           intros _. split; [discriminate | reflexivity].
        -- destruct (main_loop today rest b) as [[p0 o0] b0] eqn:Hrest.
           injection H as Hp Ho Hb. subst.
           destruct (IH _ _ _ _ Hrest) as [Hle [Hw Hx]].
           split; [simpl; lia |].
           split.
           ++ intros Ho. simpl. rewrite (Hw Ho). reflexivity.
           ++ intros Ho. destruct (Hx Ho) as [Hne Hlast].
              split; [discriminate |].
              destruct p0 as [|x p0]; [congruence | exact Hlast].
Qed.

Lemma main_loop_responses_witness :
  (List.length ["Contact added."; "Good bye!"]
   <= List.length ["add Bob 0987654321"; "bye"; "all"])%nat
  /\ (Exited = Waiting ->
      List.length ["Contact added."; "Good bye!"]
      = List.length ["add Bob 0987654321"; "bye"; "all"])
  /\ (Exited = Exited ->
      ["Contact added."; "Good bye!"] <> []
      /\ last ["Contact added."; "Good bye!"] EmptyString = "Good bye!").
Proof.
  apply (main_loop_responses friday ["add Bob 0987654321"; "bye"; "all"]
           book_anna ["Contact added."; "Good bye!"] Exited
           [("Anna", anna);
            ("Bob", mkRecord "Bob" [mkPhone "0987654321"] None)]).
  reflexivity.
Defined.

Lemma main_loop_book_ok today inputs :
  forall book, book_ok book -> book_ok (snd (main_loop today inputs book)).
Proof.
  induction inputs as [|line rest IH]; intros book Hok; [exact Hok |].
  cbn [main_loop].
  destruct (parse_input line) as [e | [action args]]; [exact Hok |].
  destruct (handle_action today action args book) as [res b] eqn:Hh.
  pose proof (book_step_ok _ _ (handle_action_step _ _ _ _ _ _ Hh) Hok) as Hb.
  destruct res as [e | r]; [exact Hb |].
  destruct (existsb (String.eqb action) ["close"; "exit"; "bye"]);
    [exact Hb |].
  specialize (IH b Hb).
  destruct (main_loop today rest b) as [[p0 o0] b0]. exact IH.
Qed.

(** X19: A session starts with the empty book of [main]; whatever lines are typed
    and however the session ends, the book it leaves has distinct keys and
    holds every record under the record's own name. *)
Theorem session_book_ok today inputs :
  book_ok (snd (main_loop today inputs [])).
Proof.
  apply main_loop_book_ok. split; constructor.
Qed.
